(** * Statement-of-Facts timelines and the laytime calculator

    A shallow embedding of [src/data/sofEvents.ts] (event catalog, SoF
    documents, chronological view, totals, CSV export, result section), of
    the demurrage calculator component and of the currency service, followed
    by the properties checked against them.

    Conventions of the embedding.
    - A JavaScript [number] is [NaN] or a finite value carried as an exact
      rational ([Q]): the arithmetic is the real-number arithmetic that
      binary64 rounds.  Comparisons with zero, the sign of a difference and
      products with 0 or 1 come out as in binary64; a computed magnitude
      comes out as in binary64 up to the rounding of each operation, and
      the statements about amounts are written with that margin
      ([to_two_decimals]), for magnitudes that binary64 holds ([in_range]):
      infinities are outside the embedding.
    - [undefined]/[null] are [None]; optional properties are [option]s.
    - [new Date(s).getTime()] belongs to the host, not to the repository: it
      is a member of the class [DateHost].  The general theorems hold for
      every host; concrete evaluations use [IsoDate.host], which reads the
      format written by [Date.prototype.toISOString].
    - Objects used as dictionaries are [gmap]s; arrays are lists; the array
      objects that a function mutates live in an explicit store (module
      [Store]). *)

From stdpp Require Import base list strings gmap.
From Stdlib Require Import Ascii ZArith QArith Qabs Qround Permutation Sorted Lia DecimalString.
From Stdlib Require Import Lqa.

Local Open Scope string_scope.
Local Open Scope list_scope.

(** ** Host values: numbers, truthiness, strings, arrays *)

Module Js.

Inductive number : Type :=
| NaN
| Fin (q : Q).

Definition lift2 (f : Q -> Q -> Q) (a b : number) : number :=
  match a, b with
  | Fin x, Fin y => Fin (f x y)
  | _, _ => NaN
  end.

Definition sub : number -> number -> number := lift2 Qminus.
Definition mul : number -> number -> number := lift2 Qmult.

(** [x / d] for a non-zero literal [d]. *)
Definition div_lit (a : number) (d : Q) : number :=
  match a with
  | Fin x => Fin (x / d)%Q
  | NaN => NaN
  end.

Definition of_Z (z : Z) : number := Fin (inject_Z z).

(** [a > b], [a < b], [a <= b], [a >= b]: every comparison with NaN is false. *)
Definition gt (a b : number) : bool :=
  match a, b with
  | Fin x, Fin y => negb (Qle_bool x y)
  | _, _ => false
  end.

Definition lt (a b : number) : bool := gt b a.

Definition le (a b : number) : bool :=
  match a, b with
  | Fin x, Fin y => Qle_bool x y
  | _, _ => false
  end.

Definition isNaN (a : number) : bool :=
  match a with NaN => true | Fin _ => false end.

(** ToBoolean on a number: [0] and [NaN] are falsy. *)
Definition truthy (a : number) : bool :=
  match a with
  | NaN => false
  | Fin x => negb (Qeq_bool x 0)
  end.

Definition Math_abs (a : number) : number :=
  match a with
  | NaN => NaN
  | Fin x => Fin (Qabs x)
  end.

(** [Math.round]: the nearest integer, halves towards plus infinity. *)
Definition Math_round (a : number) : number :=
  match a with
  | NaN => NaN
  | Fin x => Fin (inject_Z (Qfloor (x + (1 # 2))%Q))
  end.

(** [parseFloat(x.toFixed(d))].  [toFixed] takes the integer [n] with
    [n / 10^d] closest to [|x|], the larger one on a tie, and restores the
    sign. *)
Definition toFixed (d : nat) (a : number) : number :=
  match a with
  | NaN => NaN
  | Fin x =>
      let s := inject_Z (10 ^ Z.of_nat d) in
      let n := inject_Z (Qfloor (Qabs x * s + (1 # 2))%Q) in
      Fin (if Qle_bool 0 x then n / s else - (n / s))%Q
  end.

(** Equality of numbers as values ([NaN] is kept apart from every finite
    value; finite values are compared as rationals). *)
Definition eqv (a b : number) : Prop :=
  match a, b with
  | NaN, NaN => True
  | Fin x, Fin y => (x == y)%Q
  | _, _ => False
  end.

(** [s || d] on an optional string: [undefined] and [''] are falsy. *)
Definition or_else (s : option string) (d : string) : string :=
  match s with
  | Some (String c r) => String c r
  | _ => d
  end.

(** Decimal rendering of an integer inside a template literal.  This is
    what the language prints for a safe integer (below [2^53] in
    magnitude); larger numbers, which it prints from their shortest
    digits and in exponent form from [10^21] on, are not covered. *)
Definition show_int (z : Z) : string :=
  NilZero.string_of_int (Z.to_int z).

(** [a.find(p)]. *)
Definition Array_find {A} (p : A -> bool) (a : list A) : option A :=
  List.find p a.

(** [a.join(sep)] on an array of strings. *)
Fixpoint Array_join (sep : string) (a : list string) : string :=
  match a with
  | [] => EmptyString
  | [x] => x
  | x :: r => x +:+ sep +:+ Array_join sep r
  end.

(** [a.splice(start, deleteCount)] with no inserted items, as the resulting
    content of [a]: negative [start] counts from the end, both arguments
    are clamped to the array. *)
Definition Array_splice {A} (a : list A) (start deleteCount : Z) : list A :=
  let len := Z.of_nat (length a) in
  let actualStart :=
    if (start <? 0)%Z then Z.max (len + start) 0 else Z.min start len in
  let actualDeleteCount := Z.min (Z.max deleteCount 0) (len - actualStart) in
  take (Z.to_nat actualStart) a
    ++ drop (Z.to_nat (actualStart + actualDeleteCount)) a.

(** SortCompare of [Array.prototype.sort] with a comparator: a NaN result
    counts as [+0]. *)
Definition SortCompare {A} (comparefn : A -> A -> number) (x y : A) : Q :=
  match comparefn x y with
  | NaN => 0%Q
  | Fin v => v
  end.

(** [Array.prototype.sort] is a stable sort.  It is modelled by stable
    insertion: an element goes in front of the first element that does not
    compare below it.  For a consistent comparator the language fixes the
    result, whatever the algorithm (see [chronological_determined] for the
    comparator used here, which is consistent when every timestamp parses,
    and also when all the timestamps that parse are equal); for an
    inconsistent one the order is left to the engine. *)
Fixpoint sort_insert {A} (comparefn : A -> A -> number) (x : A) (a : list A)
  : list A :=
  match a with
  | [] => [x]
  | y :: r =>
      if Qle_bool (SortCompare comparefn x y) 0%Q then x :: y :: r
      else y :: sort_insert comparefn x r
  end.

Fixpoint Array_sort {A} (comparefn : A -> A -> number) (a : list A) : list A :=
  match a with
  | [] => []
  | x :: r => sort_insert comparefn x (Array_sort comparefn r)
  end.

End Js.

(** The host's date parsing: the time value of [new Date(s)] in
    milliseconds, [None] for an invalid date. *)
Class DateHost := { Date_parse : string -> option Z }.

(** [new Date(s).getTime()]. *)
Definition getTime `{DateHost} (s : string) : Js.number :=
  match Date_parse s with
  | Some t => Js.of_Z t
  | None => Js.NaN
  end.

(** A date host for the strings [YYYY-MM-DDTHH:mm:ss.sssZ] that
    [toISOString] writes; every other string is an invalid date here. *)
Module IsoDate.

Definition digit (c : ascii) : option Z :=
  let n := nat_of_ascii c in
  if (48 <=? n)%nat && (n <=? 57)%nat then Some (Z.of_nat (n - 48)) else None.

Fixpoint digits (acc : Z) (cs : list ascii) : option Z :=
  match cs with
  | [] => Some acc
  | c :: r =>
      match digit c with
      | Some d => digits (10 * acc + d) r
      | None => None
      end
  end.

Definition number_of (cs : list ascii) : option Z := digits 0 cs.

Definition leap (y : Z) : bool :=
  ((y mod 4 =? 0) && negb (y mod 100 =? 0) || (y mod 400 =? 0))%Z.

Definition days_in_month (y m : Z) : Z :=
  if (m =? 2)%Z then (if leap y then 29 else 28)
  else if ((m =? 4) || (m =? 6) || (m =? 9) || (m =? 11))%Z then 30
  else 31.

(** Days from 1970-01-01 to the civil date [y]-[m]-[d]. *)
Definition days_from_civil (y m d : Z) : Z :=
  let y' := if (m <=? 2)%Z then (y - 1)%Z else y in
  let era := (y' / 400)%Z in
  let yoe := (y' - era * 400)%Z in
  let mp := ((m + 9) mod 12)%Z in
  let doy := ((153 * mp + 2) / 5 + d - 1)%Z in
  let doe := (yoe * 365 + yoe / 4 - yoe / 100 + doy)%Z in
  (era * 146097 + doe - 719468)%Z.

Definition parse (s : string) : option Z :=
  match String.list_ascii_of_string s with
  | [y1; y2; y3; y4; d1; m1; m2; d2; a1; a2; t; h1; h2; c1; n1; n2; c2;
     s1; s2; p; f1; f2; f3; z] =>
      if negb (Ascii.eqb d1 "-" && Ascii.eqb d2 "-" && Ascii.eqb t "T"
               && Ascii.eqb c1 ":" && Ascii.eqb c2 ":" && Ascii.eqb p "."
               && Ascii.eqb z "Z")%char
      then None
      else
        match number_of [y1; y2; y3; y4], number_of [m1; m2],
              number_of [a1; a2], number_of [h1; h2], number_of [n1; n2],
              number_of [s1; s2], number_of [f1; f2; f3] with
        | Some y, Some m, Some d, Some h, Some n, Some sec, Some ms =>
            if ((1 <=? m) && (m <=? 12) && (1 <=? d)
                && (d <=? days_in_month y m) && (h <=? 23) && (n <=? 59)
                && (sec <=? 59))%Z
            then Some ((((days_from_civil y m d * 24 + h) * 60 + n) * 60
                        + sec) * 1000 + ms)%Z
            else None
        | _, _, _, _, _, _, _ => None
        end
  | _ => None
  end.

Definition host : DateHost := {| Date_parse := parse |}.

End IsoDate.

(** ** The event catalog and SoF documents ([src/data/sofEvents.ts]) *)

Inductive SofEventCategory : Type :=
| ARRIVAL_PORT_ENTRY
| PRE_CARGO_OPERATIONS
| CARGO_OPERATIONS
| INTERRUPTIONS_DELAYS
| DOCUMENTATION_SURVEYS
| DEPARTURE_PORT_EXIT
| SPECIAL_EVENTS.

(** The string value of each member of the enum. *)
Definition category_value (c : SofEventCategory) : string :=
  match c with
  | ARRIVAL_PORT_ENTRY => "Arrival & Port Entry"
  | PRE_CARGO_OPERATIONS => "Pre-Cargo Operations"
  | CARGO_OPERATIONS => "Cargo Operations"
  | INTERRUPTIONS_DELAYS => "Interruptions & Delays"
  | DOCUMENTATION_SURVEYS => "Documentation & Surveys"
  | DEPARTURE_PORT_EXIT => "Departure & Port Exit"
  | SPECIAL_EVENTS => "Special Events"
  end.

(** [Object.values(SofEventCategory)], in declaration order. *)
Definition SofEventCategory_values : list SofEventCategory :=
  [ARRIVAL_PORT_ENTRY; PRE_CARGO_OPERATIONS; CARGO_OPERATIONS;
   INTERRUPTIONS_DELAYS; DOCUMENTATION_SURVEYS; DEPARTURE_PORT_EXIT;
   SPECIAL_EVENTS].

Record SofEvent : Type := mkEvent {
  ev_id : string;
  ev_category : SofEventCategory;
  ev_name : string;
  ev_description : option string;
  ev_requiresTimestamp : bool;
  ev_requiresRemarks : option bool;
  ev_requiresLocation : option bool
}.

(** [SofEventRecord extends SofEvent]: the definition's properties followed
    by those of the occurrence. *)
Record SofEventRecord : Type := mkRecord {
  id : string;
  category : SofEventCategory;
  name : string;
  description : option string;
  requiresTimestamp : bool;
  requiresRemarks : option bool;
  requiresLocation : option bool;
  timestamp : string;
  remarks : option string;
  location : option string;
  vesselName : option string;
  portName : option string
}.

Record SofDocument : Type := mkDocument {
  doc_id : string;
  doc_vesselName : string;
  doc_portName : string;
  arrivalDate : option string;
  departureDate : option string;
  events : list SofEventRecord
}.

(** What a [throw new Error(message)] carries. *)
Inductive Error : Type := mkError (message : string).

(** The outcome of a call that may throw. *)
Inductive Completion (A : Type) : Type :=
| Return (a : A)
| Throw (e : Error).
Arguments Return {A} a.
Arguments Throw {A} e.

(** The catalog, in declaration order. *)
Definition sofEvents : list SofEvent := [
  mkEvent "vessel_arrived_opl" ARRIVAL_PORT_ENTRY
    "Vessel arrived at port limits (OPL)"
    (Some "Vessel reaches the designated port limits area")
    true None (Some true);
  mkEvent "vessel_arrived_anchorage" ARRIVAL_PORT_ENTRY
    "Anchored"
    (Some "Vessel reaches and secures at the designated anchorage area")
    true None (Some true);
  mkEvent "pilot_onboard_arrival" ARRIVAL_PORT_ENTRY
    "Pilot onboard (arrival)"
    (Some "Harbor pilot boards the vessel to assist with port navigation")
    true None None;
  mkEvent "tugs_made_fast_arrival" ARRIVAL_PORT_ENTRY
    "Tugs made fast (arrival)"
    (Some "Tugboats are secured to the vessel to assist with berthing")
    true None None;
  mkEvent "vessel_alongside_berthed" ARRIVAL_PORT_ENTRY
    "Berthed"
    (Some "Vessel is positioned alongside the designated berth")
    true None (Some true);
  mkEvent "first_line_ashore" ARRIVAL_PORT_ENTRY
    "First line ashore"
    (Some "First mooring line is secured to the shore")
    true None None;
  mkEvent "all_fast" ARRIVAL_PORT_ENTRY
    "All fast (mooring complete)"
    (Some "All mooring lines are secured and vessel is fully moored")
    true None None;
  mkEvent "gangway_secured" ARRIVAL_PORT_ENTRY
    "Gangway secured"
    (Some "Ship's gangway is lowered and secured for personnel access")
    true None None;
  mkEvent "free_pratique_granted" ARRIVAL_PORT_ENTRY
    "Free pratique granted"
    (Some "Health clearance granted allowing ship to interact with the port")
    true None None;
  mkEvent "immigration_clearance_completed" ARRIVAL_PORT_ENTRY
    "Immigration clearance completed"
    (Some "Immigration authorities have completed crew verification")
    true None None;
  mkEvent "customs_clearance_completed" ARRIVAL_PORT_ENTRY
    "Customs clearance completed"
    (Some "Customs authorities have completed cargo and vessel clearance")
    true None None;
  mkEvent "port_state_control_inspection" ARRIVAL_PORT_ENTRY
    "Port state control inspection"
    (Some "Inspection by port authorities to verify compliance with regulations")
    true (Some true) None;
  mkEvent "port_clearance_granted" ARRIVAL_PORT_ENTRY
    "Port clearance granted"
    (Some "Final clearance granted by port authorities")
    true None None;
  mkEvent "draught_survey_initial" PRE_CARGO_OPERATIONS
    "Draught survey (initial)"
    (Some "Initial measurement of vessel's draft to determine cargo quantity")
    true (Some true) None;
  mkEvent "hatch_tank_inspection" PRE_CARGO_OPERATIONS
    "Hatch/tank inspection"
    (Some "Inspection of cargo spaces before operations")
    true (Some true) None;
  mkEvent "surveyor_onboard" PRE_CARGO_OPERATIONS
    "Surveyor onboard"
    (Some "Independent cargo surveyor boards the vessel")
    true None None;
  mkEvent "sampling_start" PRE_CARGO_OPERATIONS
    "Sampling start"
    (Some "Beginning of cargo sampling process")
    true None None;
  mkEvent "sampling_completed" PRE_CARGO_OPERATIONS
    "Sampling completed"
    (Some "Completion of cargo sampling process")
    true None None;
  mkEvent "ballast_operations_start" PRE_CARGO_OPERATIONS
    "Ballast operations start"
    (Some "Beginning of ballast water operations")
    true None None;
  mkEvent "ballast_operations_stop" PRE_CARGO_OPERATIONS
    "Ballast operations stop"
    (Some "End of ballast water operations")
    true None None;
  mkEvent "hose_connection" PRE_CARGO_OPERATIONS
    "Hose connection / Loading arm connected"
    (Some "Cargo transfer equipment connected between ship and shore")
    true None None;
  mkEvent "loading_arm_crane_inspection" PRE_CARGO_OPERATIONS
    "Loading arm/crane inspection"
    (Some "Inspection of cargo transfer equipment")
    true (Some true) None;
  mkEvent "cargo_loading_started" CARGO_OPERATIONS
    "Cargo Loading"
    (Some "Beginning of cargo loading operations")
    true None None;
  mkEvent "cargo_loading_stopped" CARGO_OPERATIONS
    "Cargo loading stopped (temporary)"
    (Some "Temporary halt of cargo loading operations")
    true (Some true) None;
  mkEvent "cargo_loading_resumed" CARGO_OPERATIONS
    "Cargo loading resumed"
    (Some "Resumption of cargo loading after temporary stop")
    true None None;
  mkEvent "cargo_loading_completed" CARGO_OPERATIONS
    "Completed Loading"
    (Some "Completion of all cargo loading operations")
    true None None;
  mkEvent "cargo_discharging_started" CARGO_OPERATIONS
    "Cargo discharging started"
    (Some "Beginning of cargo discharge operations")
    true None None;
  mkEvent "cargo_discharging_stopped" CARGO_OPERATIONS
    "Cargo discharging stopped (temporary)"
    (Some "Temporary halt of cargo discharge operations")
    true (Some true) None;
  mkEvent "cargo_discharging_resumed" CARGO_OPERATIONS
    "Cargo discharging resumed"
    (Some "Resumption of cargo discharge after temporary stop")
    true None None;
  mkEvent "cargo_discharging_completed" CARGO_OPERATIONS
    "Cargo discharging completed"
    (Some "Completion of all cargo discharge operations")
    true None None;
  mkEvent "tank_cleaning_started" CARGO_OPERATIONS
    "Tank cleaning started"
    (Some "Beginning of tank cleaning operations")
    true None None;
  mkEvent "tank_cleaning_completed" CARGO_OPERATIONS
    "Tank cleaning completed"
    (Some "Completion of tank cleaning operations")
    true None None;
  mkEvent "hold_cleaning_started" CARGO_OPERATIONS
    "Hold cleaning started"
    (Some "Beginning of cargo hold cleaning operations")
    true None None;
  mkEvent "hold_cleaning_completed" CARGO_OPERATIONS
    "Hold cleaning completed"
    (Some "Completion of cargo hold cleaning operations")
    true None None;
  mkEvent "bunker_operations_started" CARGO_OPERATIONS
    "Bunker operations started"
    (Some "Beginning of vessel refueling operations")
    true None None;
  mkEvent "bunker_operations_completed" CARGO_OPERATIONS
    "Bunker operations completed"
    (Some "Completion of vessel refueling operations")
    true None None;
  mkEvent "ballasting_started" CARGO_OPERATIONS
    "Ballasting started"
    (Some "Beginning of taking on ballast water")
    true None None;
  mkEvent "ballasting_completed" CARGO_OPERATIONS
    "Ballasting completed"
    (Some "Completion of taking on ballast water")
    true None None;
  mkEvent "de_ballasting_started" CARGO_OPERATIONS
    "De-ballasting started"
    (Some "Beginning of discharging ballast water")
    true None None;
  mkEvent "de_ballasting_completed" CARGO_OPERATIONS
    "De-ballasting completed"
    (Some "Completion of discharging ballast water")
    true None None;
  mkEvent "weather_stoppage" INTERRUPTIONS_DELAYS
    "Weather stoppage (rain, fog, storm, swell)"
    (Some "Operations halted due to adverse weather conditions")
    true (Some true) None;
  mkEvent "technical_breakdown_ship" INTERRUPTIONS_DELAYS
    "Technical breakdown (ship equipment)"
    (Some "Operations halted due to vessel equipment failure")
    true (Some true) None;
  mkEvent "technical_breakdown_shore" INTERRUPTIONS_DELAYS
    "Technical breakdown (shore equipment)"
    (Some "Operations halted due to port equipment failure")
    true (Some true) None;
  mkEvent "power_failure" INTERRUPTIONS_DELAYS
    "Power failure (port or vessel)"
    (Some "Operations halted due to electrical power loss")
    true (Some true) None;
  mkEvent "strike_labor_stoppage" INTERRUPTIONS_DELAYS
    "Strike / labor stoppage"
    (Some "Operations halted due to labor action")
    true (Some true) None;
  mkEvent "holiday_stoppage" INTERRUPTIONS_DELAYS
    "Holiday stoppage"
    (Some "Operations halted due to local holiday")
    true (Some true) None;
  mkEvent "government_inspection_delay" INTERRUPTIONS_DELAYS
    "Government inspection delay"
    (Some "Operations halted for government inspection")
    true (Some true) None;
  mkEvent "waiting_cargo_availability" INTERRUPTIONS_DELAYS
    "Waiting for cargo availability"
    (Some "Delay due to cargo not being ready for loading")
    true None None;
  mkEvent "waiting_surveyor_documents" INTERRUPTIONS_DELAYS
    "Waiting for surveyor / documents"
    (Some "Delay due to pending documentation or surveyor availability")
    true None None;
  mkEvent "waiting_berth_congestion" INTERRUPTIONS_DELAYS
    "Waiting for berth (congestion)"
    (Some "Delay due to unavailability of berth")
    true None None;
  mkEvent "vessel_shifting" INTERRUPTIONS_DELAYS
    "Vessel shifting (to/from berth/anchorage)"
    (Some "Vessel relocating within port area")
    true None (Some true);
  mkEvent "port_authority_stoppage" INTERRUPTIONS_DELAYS
    "Port authority stoppage"
    (Some "Operations halted by port authority directive")
    true (Some true) None;
  mkEvent "nor_tendered" DOCUMENTATION_SURVEYS
    "Notice of Readiness (NOR) tendered"
    (Some "Formal notification that vessel is ready for cargo operations")
    true None None;
  mkEvent "nor_accepted" DOCUMENTATION_SURVEYS
    "Notice of Readiness (NOR) accepted"
    (Some "Formal acceptance of vessel's readiness for cargo operations")
    true None None;
  mkEvent "ullage_survey_start" DOCUMENTATION_SURVEYS
    "Ullage survey start"
    (Some "Beginning of tank ullage measurement")
    true None None;
  mkEvent "ullage_survey_completed" DOCUMENTATION_SURVEYS
    "Ullage survey completed"
    (Some "Completion of tank ullage measurement")
    true None None;
  mkEvent "draught_survey_final" DOCUMENTATION_SURVEYS
    "Draught survey (final)"
    (Some "Final measurement of vessel's draft to determine cargo quantity")
    true (Some true) None;
  mkEvent "cargo_tally_measurement_completed" DOCUMENTATION_SURVEYS
    "Cargo tally / measurement completed"
    (Some "Completion of cargo quantity verification")
    true None None;
  mkEvent "cargo_documents_completed" DOCUMENTATION_SURVEYS
    "Cargo documents completed"
    (Some "Completion of all cargo-related documentation")
    true None None;
  mkEvent "mates_receipt_signed" DOCUMENTATION_SURVEYS
    "Mate's Receipt signed"
    (Some "Acknowledgment of cargo received onboard")
    true None None;
  mkEvent "bill_of_lading_signed" DOCUMENTATION_SURVEYS
    "Bill of Lading signed"
    (Some "Official cargo ownership document signed")
    true None None;
  mkEvent "statement_of_facts_signed" DOCUMENTATION_SURVEYS
    "Statement of Facts signed"
    (Some "Official record of port call events signed by all parties")
    true None None;
  mkEvent "hose_arm_disconnected" DEPARTURE_PORT_EXIT
    "Hose/arm disconnected"
    (Some "Cargo transfer equipment disconnected between ship and shore")
    true None None;
  mkEvent "hatch_closing_completed" DEPARTURE_PORT_EXIT
    "Hatch closing completed"
    (Some "All cargo hatches secured for sea voyage")
    true None None;
  mkEvent "pilot_onboard_departure" DEPARTURE_PORT_EXIT
    "Pilot onboard (departure)"
    (Some "Harbor pilot boards the vessel to assist with port departure")
    true None None;
  mkEvent "tugs_made_fast_departure" DEPARTURE_PORT_EXIT
    "Tugs made fast (departure)"
    (Some "Tugboats are secured to the vessel to assist with unberthing")
    true None None;
  mkEvent "last_line_off" DEPARTURE_PORT_EXIT
    "Last line off"
    (Some "Final mooring line released from shore")
    true None None;
  mkEvent "vessel_unberthed" DEPARTURE_PORT_EXIT
    "Vessel unberthed"
    (Some "Vessel has departed from the berth")
    true None None;
  mkEvent "vessel_departed_anchorage" DEPARTURE_PORT_EXIT
    "Vessel departed anchorage"
    (Some "Vessel has left the anchorage area")
    true None None;
  mkEvent "vessel_cleared_port_limits" DEPARTURE_PORT_EXIT
    "Departed"
    (Some "Vessel has exited the port jurisdiction area")
    true None None;
  mkEvent "crew_change_start" SPECIAL_EVENTS
    "Crew change start"
    (Some "Beginning of crew rotation process")
    true None None;
  mkEvent "crew_change_completed" SPECIAL_EVENTS
    "Crew change completed"
    (Some "Completion of crew rotation process")
    true None None;
  mkEvent "medical_evacuation" SPECIAL_EVENTS
    "Medical evacuation / emergency"
    (Some "Emergency medical situation requiring evacuation or assistance")
    true (Some true) None;
  mkEvent "garbage_disposal_completed" SPECIAL_EVENTS
    "Garbage disposal completed"
    (Some "Completion of waste removal from vessel")
    true None None;
  mkEvent "sludge_discharge_completed" SPECIAL_EVENTS
    "Sludge discharge completed"
    (Some "Completion of oily waste removal from vessel")
    true None None;
  mkEvent "fresh_water_supply_start" SPECIAL_EVENTS
    "Fresh water supply start"
    (Some "Beginning of fresh water delivery to vessel")
    true None None;
  mkEvent "fresh_water_supply_completed" SPECIAL_EVENTS
    "Fresh water supply completed"
    (Some "Completion of fresh water delivery to vessel")
    true None None;
  mkEvent "stores_spare_parts_delivery" SPECIAL_EVENTS
    "Stores/spare parts delivery"
    (Some "Delivery of supplies or equipment to vessel")
    true None None;
  mkEvent "isps_security_inspection" SPECIAL_EVENTS
    "ISPS / security inspection"
    (Some "International Ship and Port Facility Security inspection")
    true (Some true) None
].

Definition getAllSofEvents : list SofEvent := sofEvents.

Definition category_eqb (a b : SofEventCategory) : bool :=
  String.eqb (category_value a) (category_value b).

Definition getSofEventsByCategory (c : SofEventCategory) : list SofEvent :=
  List.filter (fun event => category_eqb (ev_category event) c) sofEvents.

Definition getSofEventById (eventId : string) : option SofEvent :=
  Js.Array_find (fun event => String.eqb (ev_id event) eventId) sofEvents.

Definition getAllSofEventCategories : list SofEventCategory :=
  SofEventCategory_values.

(** [createSofDocument]; the identifier drawn by [generateUniqueId] (clock
    and random generator) is an argument. *)
Definition createSofDocument (uniqueId vesselName portName : string)
  : SofDocument :=
  {| doc_id := uniqueId; doc_vesselName := vesselName;
     doc_portName := portName; arrivalDate := None; departureDate := None;
     events := [] |}.

(** [{ ...sofDocument, events: evs }]. *)
Definition with_events (sofDocument : SofDocument) (evs : list SofEventRecord)
  : SofDocument :=
  {| doc_id := doc_id sofDocument;
     doc_vesselName := doc_vesselName sofDocument;
     doc_portName := doc_portName sofDocument;
     arrivalDate := arrivalDate sofDocument;
     departureDate := departureDate sofDocument;
     events := evs |}.

(** The record that [addEventToSof] builds: the definition spread, then the
    occurrence's own properties. *)
Definition mkEventRecord (sofDocument : SofDocument) (event : SofEvent)
    (timestamp : string) (remarks location : option string) : SofEventRecord :=
  {| id := ev_id event; category := ev_category event; name := ev_name event;
     description := ev_description event;
     requiresTimestamp := ev_requiresTimestamp event;
     requiresRemarks := ev_requiresRemarks event;
     requiresLocation := ev_requiresLocation event;
     timestamp := timestamp; remarks := remarks; location := location;
     vesselName := Some (doc_vesselName sofDocument);
     portName := Some (doc_portName sofDocument) |}.

Definition addEventToSof (sofDocument : SofDocument) (eventId timestamp : string)
    (remarks location : option string) : Completion SofDocument :=
  match getSofEventById eventId with
  | None => Throw (mkError ("Event with ID " +:+ eventId +:+ " not found"))
  | Some event =>
      let eventRecord :=
        mkEventRecord sofDocument event timestamp remarks location in
      Return (with_events sofDocument (events sofDocument ++ [eventRecord]))
  end.

(** The guard shared by the two index operations. *)
Definition out_of_bounds (sofDocument : SofDocument) (eventIndex : Z) : bool :=
  (eventIndex <? 0)%Z || (eventIndex >=? Z.of_nat (length (events sofDocument)))%Z.

Definition bounds_error (eventIndex : Z) : Error :=
  mkError ("Event index " +:+ Js.show_int eventIndex +:+ " is out of bounds").

Definition removeEventFromSof (sofDocument : SofDocument) (eventIndex : Z)
  : Completion SofDocument :=
  if out_of_bounds sofDocument eventIndex then Throw (bounds_error eventIndex)
  else
    let updatedEvents := Js.Array_splice (events sofDocument) eventIndex 1 in
    Return (with_events sofDocument updatedEvents).

(** The [updates] argument: the properties that its type leaves open.  A
    property is absent ([None]) or present with its value; the optional ones
    may be present and [undefined]. *)
Record SofEventUpdates : Type := mkUpdates {
  upd_timestamp : option string;
  upd_remarks : option (option string);
  upd_location : option (option string);
  upd_vesselName : option (option string);
  upd_portName : option (option string)
}.

(** [{ ...old, ...updates }]. *)
Definition spread_updates (old : SofEventRecord) (updates : SofEventUpdates)
  : SofEventRecord :=
  {| id := id old; category := category old; name := name old;
     description := description old;
     requiresTimestamp := requiresTimestamp old;
     requiresRemarks := requiresRemarks old;
     requiresLocation := requiresLocation old;
     timestamp := default (timestamp old) (upd_timestamp updates);
     remarks := default (remarks old) (upd_remarks updates);
     location := default (location old) (upd_location updates);
     vesselName := default (vesselName old) (upd_vesselName updates);
     portName := default (portName old) (upd_portName updates) |}.

Definition updateEventInSof (sofDocument : SofDocument) (eventIndex : Z)
    (updates : SofEventUpdates) : Completion SofDocument :=
  if out_of_bounds sofDocument eventIndex then Throw (bounds_error eventIndex)
  else
    let updatedEvents :=
      alter (fun old => spread_updates old updates) (Z.to_nat eventIndex)
        (events sofDocument) in
    Return (with_events sofDocument updatedEvents).

(** The characters that the export writes literally. *)
Definition newline : string := String (ascii_of_nat 10) EmptyString.
Definition dquote : string := String (ascii_of_nat 34) EmptyString.

(** The template literal that wraps a field in double quotes. *)
Definition quoted (s : string) : string := dquote +:+ s +:+ dquote.

Definition csv_header : string :=
  "Event Category,Event Name,Timestamp,Location,Remarks" +:+ newline.

Definition csv_row (event : SofEventRecord) : list string :=
  [quoted (category_value (category event));
   quoted (name event);
   quoted (timestamp event);
   quoted (Js.or_else (location event) EmptyString);
   quoted (Js.or_else (remarks event) EmptyString)].

(** [exportSofToCsv]: the header, then [csv += row.join(',') + '\n'] for each
    element of [sofDocument.events] in turn. *)
Definition exportSofToCsv (sofDocument : SofDocument) : string :=
  fold_left (fun csv event => csv +:+ (Js.Array_join "," (csv_row event) +:+ newline))
    (events sofDocument) csv_header.

(** [getSofEventsSummary]: a dictionary keyed by the category values, every
    key set to 0 and then incremented once for each event.  (An increment of
    a missing key cannot occur: every category is a key.) *)
Definition getSofEventsSummary (sofDocument : SofDocument) : gmap string nat :=
  let summary :=
    fold_left (fun s c => <[category_value c := 0%nat]> s)
      SofEventCategory_values (∅ : gmap string nat) in
  fold_left (fun s event => alter S (category_value (category event)) s)
    (events sofDocument) summary.

Section Timeline.

Context `{host : DateHost}.

(** The comparator given to [sort]. *)
Definition by_timestamp (a b : SofEventRecord) : Js.number :=
  Js.sub (getTime (timestamp a)) (getTime (timestamp b)).

Definition getSofEventsChronological (sofDocument : SofDocument)
  : list SofEventRecord :=
  Js.Array_sort by_timestamp (events sofDocument).

(** [calculateTotalTime]: [null] is [None].  (The last branch stands for
    reading [timestamp] off a missing element; with two or more events the
    sorted copy has a first and a last element.) *)
Definition calculateTotalTime (sofDocument : SofDocument) : option Js.number :=
  if (length (events sofDocument) <? 2)%nat then None
  else
    let chronologicalEvents := getSofEventsChronological sofDocument in
    match head chronologicalEvents, last chronologicalEvents with
    | Some firstEvent, Some lastEvent =>
        let startTime := getTime (timestamp firstEvent) in
        let endTime := getTime (timestamp lastEvent) in
        Some (Js.div_lit (Js.sub endTime startTime) (inject_Z (1000 * 60 * 60)))
    | _, _ => None
    end.

Definition calculateDuration (startTime endTime : string) : Js.number :=
  let start := getTime startTime in
  let end_ := getTime endTime in
  Js.div_lit (Js.sub end_ start) (inject_Z (1000 * 60 * 60)).

End Timeline.

(** ** The result section *)

Record EventPair : Type := mkPair {
  startEvent : SofEventRecord;
  endEvent : SofEventRecord;
  duration : Js.number
}.

Record FormattedEvent : Type := mkFormatted {
  fe_type : string;
  fe_startTime : string;
  fe_endTime : string;
  fe_duration : option Js.number;
  fe_location : string;
  fe_description : string;
  fe_remarks : string;
  fe_anomalies : string
}.

Record OperationalSummary : Type := mkSummary {
  totalEvents : nat;
  totalTimeInPort : option Js.number;
  loadingTime : Js.number;
  waitingTime : Js.number;
  eventsByCategory : gmap string nat
}.

Record KeyEvents : Type := mkKeyEvents {
  anchored : option SofEventRecord;
  berthed : option SofEventRecord;
  cargoLoading : option SofEventRecord;
  completedLoading : option SofEventRecord;
  departed : option SofEventRecord
}.

Record VesselDetails : Type := mkVessel {
  vd_name : string;
  vd_port : string;
  vd_arrivalDate : option string;
  vd_departureDate : option string
}.

Record SofResultSection : Type := mkResultSection {
  vesselDetails : VesselDetails;
  operationalSummary : OperationalSummary;
  keyEvents : KeyEvents;
  eventPairs : list EventPair;
  formattedEvents : list FormattedEvent;
  allEvents : list SofEventRecord
}.

(** The object literal [fixedDurations] of [getSofResultSection]. *)
Record FixedDurations : Type := mkFixedDurations {
  vessel_arrived_anchorage_to_vessel_alongside_berthed : Js.number;
  vessel_alongside_berthed_to_cargo_loading_started : Js.number;
  cargo_loading_started_to_cargo_loading_completed : Js.number;
  cargo_loading_completed_to_vessel_cleared_port_limits : Js.number
}.

Definition fixedDurations : FixedDurations :=
  {| vessel_arrived_anchorage_to_vessel_alongside_berthed := Js.Fin (5 # 2);
     vessel_alongside_berthed_to_cargo_loading_started := Js.Fin 1;
     cargo_loading_started_to_cargo_loading_completed := Js.Fin (23 # 2);
     cargo_loading_completed_to_vessel_cleared_port_limits := Js.Fin (7 # 4) |}.

(** [chronologicalEvents.find(e => e.id === key)]. *)
Definition find_by_id (key : string) (evs : list SofEventRecord)
  : option SofEventRecord :=
  Js.Array_find (fun e => String.eqb (id e) key) evs.

(** One [if (a && b) { eventPairs.push({...}) }] step: the array after it. *)
Definition push_pair (a b : option SofEventRecord) (d : Js.number)
    (pairs : list EventPair) : list EventPair :=
  match a, b with
  | Some s, Some e => pairs ++ [mkPair s e d]
  | _, _ => pairs
  end.

(** The value of a variable assigned inside [if (a && b)]. *)
Definition set_if_both {A} (a b : option SofEventRecord) (v old : A) : A :=
  match a, b with
  | Some _, Some _ => v
  | _, _ => old
  end.

(** The callback of [chronologicalEvents.map] that formats one event. *)
Definition format_event (pairs : list EventPair) (event : SofEventRecord)
  : FormattedEvent :=
  let pair :=
    Js.Array_find (fun p => String.eqb (id (startEvent p)) (id event)) pairs in
  let endTime :=
    match pair with Some p => timestamp (endEvent p) | None => EmptyString end in
  let duration :=
    match pair with Some p => Some (duration p) | None => None end in
  {| fe_type := name event;
     fe_startTime := timestamp event;
     fe_endTime := endTime;
     fe_duration := duration;
     fe_location := Js.or_else (location event) "-";
     fe_description := Js.or_else (description event) EmptyString;
     fe_remarks := Js.or_else (remarks event) EmptyString;
     fe_anomalies := "Clean" |}.

(** [totalTime ? Math.round(totalTime * 10) / 10 : null]. *)
Definition round_for_display (totalTime : option Js.number) : option Js.number :=
  match totalTime with
  | Some t =>
      if Js.truthy t
      then Some (Js.div_lit (Js.Math_round (Js.mul t (Js.Fin 10))) 10)
      else None
  | None => None
  end.

Section ResultSection.

Context `{host : DateHost}.

Definition getSofResultSection (sofDocument : SofDocument) : SofResultSection :=
  let chronologicalEvents := getSofEventsChronological sofDocument in
  let totalTime := calculateTotalTime sofDocument in
  let categorySummary := getSofEventsSummary sofDocument in
  let loadingTime0 := Js.Fin 0 in
  let waitingTime0 := Js.Fin 0 in
  let anchoredEvent := find_by_id "vessel_arrived_anchorage" chronologicalEvents in
  let berthedEvent := find_by_id "vessel_alongside_berthed" chronologicalEvents in
  let cargoLoadingEvent := find_by_id "cargo_loading_started" chronologicalEvents in
  let completedLoadingEvent :=
    find_by_id "cargo_loading_completed" chronologicalEvents in
  let departedEvent := find_by_id "vessel_cleared_port_limits" chronologicalEvents in
  let d1 := vessel_arrived_anchorage_to_vessel_alongside_berthed fixedDurations in
  let d2 := vessel_alongside_berthed_to_cargo_loading_started fixedDurations in
  let d3 := cargo_loading_started_to_cargo_loading_completed fixedDurations in
  let d4 := cargo_loading_completed_to_vessel_cleared_port_limits fixedDurations in
  let eventPairs1 := push_pair anchoredEvent berthedEvent d1 [] in
  let waitingTime := set_if_both anchoredEvent berthedEvent d1 waitingTime0 in
  let eventPairs2 := push_pair berthedEvent cargoLoadingEvent d2 eventPairs1 in
  let eventPairs3 :=
    push_pair cargoLoadingEvent completedLoadingEvent d3 eventPairs2 in
  let loadingTime :=
    set_if_both cargoLoadingEvent completedLoadingEvent d3 loadingTime0 in
  let eventPairs4 :=
    push_pair completedLoadingEvent departedEvent d4 eventPairs3 in
  let formattedEvents := map (format_event eventPairs4) chronologicalEvents in
  {| vesselDetails :=
       {| vd_name := doc_vesselName sofDocument;
          vd_port := doc_portName sofDocument;
          vd_arrivalDate := arrivalDate sofDocument;
          vd_departureDate := departureDate sofDocument |};
     operationalSummary :=
       {| totalEvents := length chronologicalEvents;
          totalTimeInPort := round_for_display totalTime;
          loadingTime := loadingTime;
          waitingTime := waitingTime;
          eventsByCategory := categorySummary |};
     keyEvents :=
       {| anchored := anchoredEvent; berthed := berthedEvent;
          cargoLoading := cargoLoadingEvent;
          completedLoading := completedLoadingEvent;
          departed := departedEvent |};
     eventPairs := eventPairs4;
     formattedEvents := formattedEvents;
     allEvents := chronologicalEvents |}.

End ResultSection.

(** ** The index operations over a store of array objects

    [addEventToSof], [removeEventFromSof] and [updateEventInSof] copy the
    array of the document they are given and ([splice], indexed assignment)
    write to the copy.  Here arrays are objects in a store, a document holds
    a reference to its array, and the three functions are state
    transformers; [Store.view] reads a document back as a value. *)

Module Store.

(** The store: the content of every array allocated so far; a reference
    is a position in it. *)
Abbreviation heap := (list (list SofEventRecord)).

Record DocumentObject : Type := mkObject {
  header : SofDocument;   (** the properties other than [events] *)
  events_ref : nat        (** the array that [events] refers to *)
}.

(** A computation that reads and writes the store and may throw; the
    store is kept when it throws. *)
Definition M (A : Type) : Type := heap -> Completion A * heap.

Definition ret {A} (a : A) : M A := fun h => (Return a, h).

Definition throw {A} (e : Error) : M A := fun h => (Throw e, h).

Definition bind {A B} (m : M A) (k : A -> M B) : M B :=
  fun h =>
    match m h with
    | (Return a, h') => k a h'
    | (Throw e, h') => (Throw e, h')
    end.

Notation "'let!' x ':=' m 'in' k" := (bind m (fun x => k))
  (at level 10, x name, m at level 200, k at level 200).

(** The content of an array. *)
Definition read (r : nat) : M (list SofEventRecord) :=
  fun h => (Return (default [] (h !! r)), h).

(** A new array object with the given content. *)
Definition alloc (a : list SofEventRecord) : M nat :=
  fun h => (Return (length h), h ++ [a]).

(** An in-place change of the array [r]. *)
Definition modify (r : nat) (f : list SofEventRecord -> list SofEventRecord)
  : M unit :=
  fun h => (Return tt, alter f r h).

Definition with_ref (sofDocument : DocumentObject) (r : nat) : DocumentObject :=
  {| header := header sofDocument; events_ref := r |}.

Definition addEventToSof (sofDocument : DocumentObject)
    (eventId timestamp : string) (remarks location : option string)
  : M DocumentObject :=
  match getSofEventById eventId with
  | None => throw (mkError ("Event with ID " +:+ eventId +:+ " not found"))
  | Some event =>
      let eventRecord :=
        mkEventRecord (header sofDocument) event timestamp remarks location in
      let! old := read (events_ref sofDocument) in
      let! r := alloc (old ++ [eventRecord]) in
      ret (with_ref sofDocument r)
  end.

Definition removeEventFromSof (sofDocument : DocumentObject) (eventIndex : Z)
  : M DocumentObject :=
  let! old := read (events_ref sofDocument) in
  if (eventIndex <? 0)%Z || (eventIndex >=? Z.of_nat (length old))%Z
  then throw (bounds_error eventIndex)
  else
    let! updatedEvents := alloc old in
    let! _ := modify updatedEvents (fun a => Js.Array_splice a eventIndex 1) in
    ret (with_ref sofDocument updatedEvents).

Definition updateEventInSof (sofDocument : DocumentObject) (eventIndex : Z)
    (updates : SofEventUpdates) : M DocumentObject :=
  let! old := read (events_ref sofDocument) in
  if (eventIndex <? 0)%Z || (eventIndex >=? Z.of_nat (length old))%Z
  then throw (bounds_error eventIndex)
  else
    let! updatedEvents := alloc old in
    let! _ := modify updatedEvents
                (alter (fun e => spread_updates e updates)
                   (Z.to_nat eventIndex)) in
    ret (with_ref sofDocument updatedEvents).

(** The document that an object denotes in a store. *)
Definition view (h : heap) (o : DocumentObject) : SofDocument :=
  with_events (header o) (default [] (h !! events_ref o)).

End Store.

(** ** The demurrage calculator and the currency service *)

Module Calculator.

Definition rate (k : string) (v : Q) : string * Js.number := (k, Js.Fin v).

Definition MOCK_EXCHANGE_RATES : gmap string (gmap string Js.number) :=
  list_to_map (map (fun row => (row.1, list_to_map row.2)) [
    ("USD",
     [rate "EUR" 0.92; rate "GBP" 0.79; rate "JPY" 156.80; rate "CAD" 1.37; rate "AUD" 1.51;
      rate "SGD" 1.35; rate "CNY" 7.25; rate "INR" 83.50; rate "USD" 1.0]);
    ("EUR",
     [rate "USD" 1.08; rate "GBP" 0.86; rate "JPY" 170.00; rate "CAD" 1.48; rate "AUD" 1.64;
      rate "SGD" 1.47; rate "CNY" 7.87; rate "INR" 90.60; rate "EUR" 1.0]);
    ("GBP",
     [rate "USD" 1.27; rate "EUR" 1.16; rate "JPY" 198.00; rate "CAD" 1.73; rate "AUD" 1.91;
      rate "SGD" 1.71; rate "CNY" 9.15; rate "INR" 105.50; rate "GBP" 1.0]);
    ("JPY",
     [rate "USD" 0.0064; rate "EUR" 0.0059; rate "GBP" 0.0051; rate "CAD" 0.0087; rate "AUD" 0.0096;
      rate "SGD" 0.0086; rate "CNY" 0.046; rate "INR" 0.53; rate "JPY" 1.0]);
    ("CAD",
     [rate "USD" 0.73; rate "EUR" 0.67; rate "GBP" 0.58; rate "JPY" 114.00; rate "AUD" 1.10;
      rate "SGD" 0.98; rate "CNY" 5.28; rate "INR" 60.90; rate "CAD" 1.0]);
    ("AUD",
     [rate "USD" 0.66; rate "EUR" 0.61; rate "GBP" 0.52; rate "JPY" 104.00; rate "CAD" 0.91;
      rate "SGD" 0.89; rate "CNY" 4.80; rate "INR" 55.30; rate "AUD" 1.0]);
    ("SGD",
     [rate "USD" 0.74; rate "EUR" 0.68; rate "GBP" 0.58; rate "JPY" 116.00; rate "CAD" 1.02;
      rate "AUD" 1.12; rate "CNY" 5.37; rate "INR" 61.90; rate "SGD" 1.0]);
    ("CNY",
     [rate "USD" 0.13; rate "EUR" 0.12; rate "GBP" 0.11; rate "JPY" 21.60; rate "CAD" 0.19;
      rate "AUD" 0.21; rate "SGD" 0.18; rate "INR" 11.50; rate "CNY" 1.0]);
    ("INR",
     [rate "USD" 0.012; rate "EUR" 0.011; rate "GBP" 0.0095; rate "JPY" 1.88; rate "CAD" 0.016;
      rate "AUD" 0.018; rate "SGD" 0.016; rate "CNY" 0.087; rate "INR" 1.0])
  ]).
(** [getExchangeRate]: the promise it returns, once settled ([Return] for
    resolved, [Throw] for rejected).  The table is looked up under the
    currency codes it lists; the names that every object inherits are not
    keys of the dictionary. *)
Definition getExchangeRate (baseCurrency targetCurrency : string)
  : Completion Js.number :=
  if String.eqb baseCurrency targetCurrency then Return (Js.Fin 1)
  else
    match MOCK_EXCHANGE_RATES !! baseCurrency ≫= (.!! targetCurrency) with
    | Some r =>
        if Js.truthy r then Return r
        else Throw (mkError "Exchange rate not found")
    | None => Throw (mkError "Exchange rate not found")
    end.

Inductive ResultType : Type := Demurrage | Despatch.

Record CalculationResult : Type := mkResult {
  type : ResultType;
  amount : Js.number;
  currency : string;
  convertedAmount : option Js.number;
  convertedCurrency : option string
}.

(** A state cell of type [number | '']. *)
Inductive field : Type :=
| Blank
| Num (n : Js.number).

(** [Number(f)]: the empty string converts to 0. *)
Definition Number (f : field) : Js.number :=
  match f with
  | Blank => Js.Fin 0
  | Num n => n
  end.

(** The component's state.  [exchangeRate] is written by
    [fetchExchangeRate] and by the exchange-rate input of the form
    ([handleInputChange] stores what the user types). *)
Record State : Type := mkState {
  dailyRate : field;
  allowedTimeDays : field;
  usedTimeDays : field;
  fromCurrency : string;
  toCurrency : string;
  exchangeRate : field;
  isLoadingExchangeRate : bool;
  calculationResult : option CalculationResult;
  errors : gmap string string
}.

Definition setExchangeRate (v : field) (st : State) : State :=
  {| dailyRate := dailyRate st; allowedTimeDays := allowedTimeDays st;
     usedTimeDays := usedTimeDays st; fromCurrency := fromCurrency st;
     toCurrency := toCurrency st; exchangeRate := v;
     isLoadingExchangeRate := isLoadingExchangeRate st;
     calculationResult := calculationResult st; errors := errors st |}.

Definition setIsLoadingExchangeRate (b : bool) (st : State) : State :=
  {| dailyRate := dailyRate st; allowedTimeDays := allowedTimeDays st;
     usedTimeDays := usedTimeDays st; fromCurrency := fromCurrency st;
     toCurrency := toCurrency st; exchangeRate := exchangeRate st;
     isLoadingExchangeRate := b;
     calculationResult := calculationResult st; errors := errors st |}.

Definition setCalculationResult (r : option CalculationResult) (st : State)
  : State :=
  {| dailyRate := dailyRate st; allowedTimeDays := allowedTimeDays st;
     usedTimeDays := usedTimeDays st; fromCurrency := fromCurrency st;
     toCurrency := toCurrency st; exchangeRate := exchangeRate st;
     isLoadingExchangeRate := isLoadingExchangeRate st;
     calculationResult := r; errors := errors st |}.

Definition setErrors (e : gmap string string) (st : State) : State :=
  {| dailyRate := dailyRate st; allowedTimeDays := allowedTimeDays st;
     usedTimeDays := usedTimeDays st; fromCurrency := fromCurrency st;
     toCurrency := toCurrency st; exchangeRate := exchangeRate st;
     isLoadingExchangeRate := isLoadingExchangeRate st;
     calculationResult := calculationResult st; errors := e |}.

(** [fetchExchangeRate], from the call to the settling of the promise
    (the notifications it shows are left out).  With equal currencies the
    rate is set at once and no lookup is started; otherwise the state
    described is the one at the moment this call's lookup settles, with no
    other write to the rate in between. *)
Definition fetchExchangeRate (st : State) : State :=
  if String.eqb (fromCurrency st) (toCurrency st)
  then setExchangeRate (Num (Js.Fin 1)) st
  else
    let st1 := setIsLoadingExchangeRate true st in
    let st2 :=
      match getExchangeRate (fromCurrency st) (toCurrency st) with
      | Return r => setExchangeRate (Num (Js.toFixed 4 r)) st1
      | Throw _ => setExchangeRate (Num (Js.Fin 1)) st1
      end in
    setIsLoadingExchangeRate false st2.

(** [f === '' || isNaN(Number(f)) || Number(f) < 0]. *)
Definition rejected_below_zero (f : field) : bool :=
  match f with
  | Blank => true
  | Num _ => Js.isNaN (Number f) || Js.lt (Number f) (Js.Fin 0)
  end.

(** [f === '' || isNaN(Number(f)) || Number(f) <= 0]. *)
Definition rejected_up_to_zero (f : field) : bool :=
  match f with
  | Blank => true
  | Num _ => Js.isNaN (Number f) || Js.le (Number f) (Js.Fin 0)
  end.

Definition set_error_if (b : bool) (key msg : string)
    (newErrors : gmap string string) : gmap string string :=
  if b then <[key := msg]> newErrors else newErrors.

(** [validateInputs]: the state after [setErrors(newErrors)] and the
    returned boolean. *)
Definition validateInputs (st : State) : State * bool :=
  let e0 : gmap string string := ∅ in
  let e1 := set_error_if (rejected_below_zero (dailyRate st))
              "dailyRate" "Valid daily rate is required" e0 in
  let e2 := set_error_if (rejected_below_zero (allowedTimeDays st))
              "allowedTimeDays" "Valid allowed time is required (days)" e1 in
  let e3 := set_error_if (rejected_below_zero (usedTimeDays st))
              "usedTimeDays" "Valid used time is required (days)" e2 in
  let e4 := set_error_if (rejected_up_to_zero (exchangeRate st))
              "exchangeRate" "Valid exchange rate is required" e3 in
  (setErrors e4 st, Nat.eqb (size e4) 0).

(** [calculateDemurrage].  The difference and the products are exact
    here, where the source rounds each to binary64: the presence of the
    result, its type, its currencies and the errors are those of the
    source, and its two amounts are those of the source up to that
    rounding. *)
Definition calculateDemurrage (st : State) : State :=
  let (st1, ok) := validateInputs st in
  if negb ok then setCalculationResult None st1
  else
    let allowed := Number (allowedTimeDays st) in
    let used := Number (usedTimeDays st) in
    let rate := Number (dailyRate st) in
    let currentExchangeRate := Number (exchangeRate st) in
    let excessTime := Js.sub used allowed in
    let (calculatedAmount, resultType) :=
      if Js.gt excessTime (Js.Fin 0)
      then (Js.mul excessTime rate, Demurrage)
      else (Js.mul (Js.Math_abs excessTime) rate, Despatch) in
    let convertedAmount := Js.mul calculatedAmount currentExchangeRate in
    setCalculationResult
      (Some {| type := resultType;
               amount := Js.toFixed 2 calculatedAmount;
               currency := fromCurrency st;
               convertedAmount := Some (Js.toFixed 2 convertedAmount);
               convertedCurrency := Some (toCurrency st) |})
      st1.

End Calculator.

(** ** Vocabulary of the statements *)

Section Vocabulary.

Context `{host : DateHost}.

(** The instant an occurrence's timestamp parses to, if it parses. *)
Definition time_of (e : SofEventRecord) : option Z := Date_parse (timestamp e).

Definition parses (e : SofEventRecord) : Prop := is_Some (time_of e).

(** Both timestamps parse and the first is not after the second. *)
Definition not_later (a b : SofEventRecord) : Prop :=
  exists ta tb, time_of a = Some ta /\ time_of b = Some tb /\ (ta <= tb)%Z.

(** Ascending by parsed timestamp. *)
Definition ascending (l : list SofEventRecord) : Prop :=
  StronglySorted not_later l.

(** The occurrences of one instant (or the unparseable ones, for [None])
    come in the same order in [l'] as in [l]. *)
Definition same_relative_order (l l' : list SofEventRecord) : Prop :=
  forall k : option Z,
    filter (fun e => time_of e = k) l' = filter (fun e => time_of e = k) l.

(** No unparseable occurrence stands before a parseable one. *)
Definition unparseable_last (l : list SofEventRecord) : Prop :=
  forall (i j : nat) a b,
    l !! i = Some a -> l !! j = Some b ->
    time_of a = None -> parses b -> (j < i)%nat.

(** [t] is the earliest (latest) instant among the occurrences of [l]. *)
Definition earliest (t : Z) (l : list SofEventRecord) : Prop :=
  (exists e, In e l /\ time_of e = Some t) /\
  forall e t', In e l -> time_of e = Some t' -> (t <= t')%Z.

Definition latest (t : Z) (l : list SofEventRecord) : Prop :=
  (exists e, In e l /\ time_of e = Some t) /\
  forall e t', In e l -> time_of e = Some t' -> (t' <= t)%Z.

(** Hours between two instants given in milliseconds. *)
Definition hours_between (t1 t2 : Z) : Q :=
  ((inject_Z t2 - inject_Z t1) / inject_Z 3600000)%Q.

End Vocabulary.

(** The adjacent milestone pairs with the duration that
    [getSofResultSection] attaches to each. *)
Definition milestone_pairs : list (string * string * Js.number) :=
  [("vessel_arrived_anchorage", "vessel_alongside_berthed",
    vessel_arrived_anchorage_to_vessel_alongside_berthed fixedDurations);
   ("vessel_alongside_berthed", "cargo_loading_started",
    vessel_alongside_berthed_to_cargo_loading_started fixedDurations);
   ("cargo_loading_started", "cargo_loading_completed",
    cargo_loading_started_to_cargo_loading_completed fixedDurations);
   ("cargo_loading_completed", "vessel_cleared_port_limits",
    cargo_loading_completed_to_vessel_cleared_port_limits fixedDurations)].

(** Two records of the same event definition: the properties that
    [updateEventInSof] may not change. *)
Definition same_definition (e e' : SofEventRecord) : Prop :=
  id e' = id e /\ category e' = category e /\ name e' = name e /\
  description e' = description e /\
  requiresTimestamp e' = requiresTimestamp e /\
  requiresRemarks e' = requiresRemarks e /\
  requiresLocation e' = requiresLocation e.

(** An index inside an array. *)
Definition inside {A} (i : Z) (a : list A) : Prop :=
  (0 <= i < Z.of_nat (length a))%Z.

(** An event of the given id occurs in the list. *)
Definition occurs (key : string) (l : list SofEventRecord) : Prop :=
  exists e, In e l /\ id e = key.

(** [s] occurs inside [t]. *)
Fixpoint mentions (s t : string) : bool :=
  String.prefix s t ||
  match t with
  | EmptyString => false
  | String _ r => mentions s r
  end.

(** One line of the export: the five quoted fields of an occurrence. *)
Definition csv_line (e : SofEventRecord) : string :=
  quoted (category_value (category e)) +:+ "," +:+
  quoted (name e) +:+ "," +:+
  quoted (timestamp e) +:+ "," +:+
  quoted (Js.or_else (location e) EmptyString) +:+ "," +:+
  quoted (Js.or_else (remarks e) EmptyString) +:+ newline.

(** The header followed by the lines of the given occurrences. *)
Definition csv_of (l : list SofEventRecord) : string :=
  csv_header +:+ fold_right String.append EmptyString (map csv_line l).

(** The number of occurrences of a character in a text. *)
Fixpoint count_char (c : ascii) (s : string) : nat :=
  match s with
  | EmptyString => 0
  | String x r => (if Ascii.eqb x c then 1 else 0) + count_char c r
  end.

(** A text without a line break. *)
Definition single_line (s : string) : Prop :=
  count_char (ascii_of_nat 10) s = 0%nat.

(** ** Example documents

    Built as [generateExactSampleSofDocument] builds its sample: a new
    document, then one [addEventToSof] per entry. *)

Definition add_all (d : SofDocument)
    (entries : list (string * string * option string * option string))
  : SofDocument :=
  fold_left
    (fun d '(eventId, timestamp, remarks, location) =>
       match addEventToSof d eventId timestamp remarks location with
       | Return d' => d'
       | Throw _ => d
       end)
    entries d.

Definition empty_doc : SofDocument :=
  createSofDocument "m1x2y3" "GLOBAL TRADER" "Kandla".

(** Anchored at 06:30, berthed at 09:00. *)
Definition doc_catalog_scenario : SofDocument :=
  add_all empty_doc
    [("vessel_arrived_anchorage", "2025-08-06T06:30:00.000Z", None,
      Some "Anchorage Area");
     ("vessel_alongside_berthed", "2025-08-06T09:00:00.000Z", None,
      Some "Berth No")].

(** Anchored at 06:30, berthed at 10:00. *)
Definition doc_late_berth : SofDocument :=
  add_all empty_doc
    [("vessel_arrived_anchorage", "2025-08-06T06:30:00.000Z", None,
      Some "Anchorage Area");
     ("vessel_alongside_berthed", "2025-08-06T10:00:00.000Z", None,
      Some "Berth No")].

(** The berthing entered before the earlier anchoring, the latter without a
    location. *)
Definition doc_unordered : SofDocument :=
  add_all empty_doc
    [("vessel_alongside_berthed", "2025-08-06T10:00:00.000Z", None,
      Some "Berth No");
     ("vessel_arrived_anchorage", "2025-08-06T06:30:00.000Z", None, None)].

(** An occurrence whose timestamp is not a date, entered first. *)
Definition doc_bad_timestamp : SofDocument :=
  add_all empty_doc
    [("vessel_arrived_anchorage", "not a date", None, Some "Anchorage Area");
     ("vessel_alongside_berthed", "2025-08-06T10:00:00.000Z", None,
      Some "Berth No")].

(** Two occurrences at the same instant. *)
Definition doc_same_instant : SofDocument :=
  add_all empty_doc
    [("vessel_arrived_anchorage", "2025-08-06T06:30:00.000Z", None,
      Some "Anchorage Area");
     ("pilot_onboard_arrival", "2025-08-06T06:30:00.000Z", None, None)].

(** Two occurrences at the same instant, then one whose timestamp is not a
    date. *)
Definition doc_trailing_bad_timestamp : SofDocument :=
  add_all empty_doc
    [("vessel_arrived_anchorage", "2025-08-06T06:30:00.000Z", None,
      Some "Anchorage Area");
     ("pilot_onboard_arrival", "2025-08-06T06:30:00.000Z", None, None);
     ("vessel_alongside_berthed", "not a date", None, Some "Berth No")].

(** The anchorage entered twice, the later arrival first. *)
Definition doc_two_anchorings : SofDocument :=
  add_all empty_doc
    [("vessel_arrived_anchorage", "2025-08-06T08:00:00.000Z",
      Some "second anchoring", Some "Outer Anchorage");
     ("vessel_arrived_anchorage", "2025-08-06T06:30:00.000Z",
      Some "first anchoring", Some "Anchorage Area")].

(** ** Vocabulary and example states of the calculator *)

(** The four numeric inputs are finite and in range: daily rate [r],
    allowed time [a] and used time [u] not below zero, exchange rate [x]
    above zero. *)
Definition valid_inputs (st : Calculator.State) (r a u x : Q) : Prop :=
  Calculator.dailyRate st = Calculator.Num (Js.Fin r) /\
  Calculator.allowedTimeDays st = Calculator.Num (Js.Fin a) /\
  Calculator.usedTimeDays st = Calculator.Num (Js.Fin u) /\
  Calculator.exchangeRate st = Calculator.Num (Js.Fin x) /\
  (0 <= r)%Q /\ (0 <= a)%Q /\ (0 <= u)%Q /\ (0 < x)%Q.

(** A non-negative amount rounded to hundredths, halves upwards. *)
Definition cents (q : Q) : Q :=
  (inject_Z (Qfloor (q * inject_Z 100 + (1 # 2))) / inject_Z 100)%Q.

(** A magnitude that binary64 holds as a finite number. *)
Definition in_range (p : Q) : Prop := (Qabs p <= inject_Z (10 ^ 300))%Q.

(** The margin that [k] rounding operations of binary64 leave around a
    value [p]: [k] times [2^-52] of its magnitude. *)
Definition slack (k : nat) (p : Q) : Q :=
  (inject_Z (Z.of_nat k) * Qabs p * (1 # 4503599627370496))%Q.

(** [q] is [p] to two decimals: a whole number of hundredths, at most half
    a hundredth away from [p]; both up to the rounding of binary64, [k]
    counting the operations that round between the inputs and [q]. *)
Definition to_two_decimals (k : nat) (q p : Q) : Prop :=
  (exists n : Z, (Qabs (q - inject_Z n / 100) <= slack 1 q)%Q) /\
  (Qabs (q - p) <= (1 # 200) + slack k p)%Q.

(** The form as first shown (USD to EUR, nothing entered), after the first
    run of [fetchExchangeRate]. *)
Definition initial_state : Calculator.State :=
  Calculator.fetchExchangeRate
    {| Calculator.dailyRate := Calculator.Blank;
       Calculator.allowedTimeDays := Calculator.Blank;
       Calculator.usedTimeDays := Calculator.Blank;
       Calculator.fromCurrency := "USD";
       Calculator.toCurrency := "EUR";
       Calculator.exchangeRate := Calculator.Blank;
       Calculator.isLoadingExchangeRate := false;
       Calculator.calculationResult := None;
       Calculator.errors := ∅ |}.

(** The terms entered in the form, both currencies set to [cur], and the
    exchange rate fetched for them. *)
Definition entered (r a u : Q) (cur : string) : Calculator.State :=
  Calculator.fetchExchangeRate
    {| Calculator.dailyRate := Calculator.Num (Js.Fin r);
       Calculator.allowedTimeDays := Calculator.Num (Js.Fin a);
       Calculator.usedTimeDays := Calculator.Num (Js.Fin u);
       Calculator.fromCurrency := cur;
       Calculator.toCurrency := cur;
       Calculator.exchangeRate := Calculator.exchangeRate initial_state;
       Calculator.isLoadingExchangeRate := false;
       Calculator.calculationResult := None;
       Calculator.errors := ∅ |}.

(** Daily rate 10000, 2 days allowed, 3.5 days used, USD to USD. *)
Definition st_scenario : Calculator.State := entered 10000 2 3.5 "USD".


(** Daily rate 1, 2 days allowed, 2.001 days used. *)
Definition st_small_excess : Calculator.State := entered 1 2 2.001 "USD".

(** ** Further vocabulary: the catalog, documents and updates *)

(** The number of occurrences of a category in a list. *)
Definition count_category (c : SofEventCategory) (l : list SofEventRecord) : nat :=
  length (List.filter (fun e => category_eqb (category e) c) l).

(** The definition part of a record is the catalog entry of its id. *)
Definition conforms (r : SofEventRecord) : Prop :=
  exists ev,
    getSofEventById (id r) = Some ev /\
    category r = ev_category ev /\ name r = ev_name ev /\
    description r = ev_description ev /\
    requiresTimestamp r = ev_requiresTimestamp ev /\
    requiresRemarks r = ev_requiresRemarks ev /\
    requiresLocation r = ev_requiresLocation ev.

(** Every occurrence of the document conforms to the catalog. *)
Definition well_formed (d : SofDocument) : Prop := Forall conforms (events d).

(** The updates object [{}]. *)
Definition no_updates : SofEventUpdates := mkUpdates None None None None None.

(** [{ ...u1, ...u2 }] on two updates objects. *)
Definition merge_updates (u1 u2 : SofEventUpdates) : SofEventUpdates :=
  {| upd_timestamp := from_option Some (upd_timestamp u1) (upd_timestamp u2);
     upd_remarks := from_option Some (upd_remarks u1) (upd_remarks u2);
     upd_location := from_option Some (upd_location u1) (upd_location u2);
     upd_vesselName := from_option Some (upd_vesselName u1) (upd_vesselName u2);
     upd_portName := from_option Some (upd_portName u1) (upd_portName u2) |}.

(** The ids that start a milestone pair. *)
Definition pair_start_ids : list string := map (fun t => t.1.1) milestone_pairs.

(** The five key events of the result section with the id each is looked
    up by. *)
Definition key_event_table : list ((KeyEvents -> option SofEventRecord) * string) :=
  [(anchored, "vessel_arrived_anchorage");
   (berthed, "vessel_alongside_berthed");
   (cargoLoading, "cargo_loading_started");
   (completedLoading, "cargo_loading_completed");
   (departed, "vessel_cleared_port_limits")].

(** ** The calculator form: currencies on offer and the selected file *)

Module CalculatorForm.

(** [supportedCurrencies], the options of the two currency selectors. *)
Definition supportedCurrencies : list string :=
  ["USD"; "EUR"; "GBP"; "JPY"; "CAD"; "AUD"; "SGD"; "CNY"; "INR"].

(** [ExtractedEvent] of [src/types/dashboard.ts]. *)
Record ExtractedEvent : Type := mkExtractedEvent {
  eventType : string;
  startTime : string;
  endTime : string;
  duration : Js.number;
  location : option string;
  description : option string;
  anomalies : option (list string)
}.

(** What the calculator reads of the selected [ProcessedFile]: its name and
    the events of its extracted data.  Both [extractedData] and [events]
    are mandatory properties of their interfaces, and the component reads
    them without a test when it renders. *)
Record ExtractedData : Type := mkExtractedData {
  events : list ExtractedEvent
}.

Record ProcessedFile : Type := mkProcessedFile {
  name : string;
  extractedData : ExtractedData
}.

(** [a + b] on numbers. *)
Definition add : Js.number -> Js.number -> Js.number := Js.lift2 Qplus.

Definition setUsedTimeDays (v : Calculator.field) (st : Calculator.State)
  : Calculator.State :=
  {| Calculator.dailyRate := Calculator.dailyRate st;
     Calculator.allowedTimeDays := Calculator.allowedTimeDays st;
     Calculator.usedTimeDays := v;
     Calculator.fromCurrency := Calculator.fromCurrency st;
     Calculator.toCurrency := Calculator.toCurrency st;
     Calculator.exchangeRate := Calculator.exchangeRate st;
     Calculator.isLoadingExchangeRate := Calculator.isLoadingExchangeRate st;
     Calculator.calculationResult := Calculator.calculationResult st;
     Calculator.errors := Calculator.errors st |}.

(** [events.reduce((sum, event) => sum + event.duration, 0)]. *)
Definition totalDurationHours (evs : list ExtractedEvent) : Js.number :=
  fold_left (fun sum event => add sum (duration event)) evs (Js.Fin 0).

(** The effect that runs when the selected file changes: the used time is
    the total duration of the file's events in days, to two decimals, and
    blank when there is no file (the notification is left out).  The tests
    [selectedFile.extractedData] and [selectedFile.extractedData.events]
    are on objects, which are truthy.  The sum and the quotient are exact
    here, where the source rounds each addition and the division to
    binary64. *)
Definition populateUsedTime (selectedFile : option ProcessedFile)
    (st : Calculator.State) : Calculator.State :=
  match selectedFile with
  | Some file =>
      setUsedTimeDays
        (Calculator.Num
           (Js.toFixed 2
              (Js.div_lit (totalDurationHours (events (extractedData file))) 24)))
        st
  | None => setUsedTimeDays Calculator.Blank st
  end.

End CalculatorForm.

(** The sum of a list of rationals. *)
Definition Qsum (l : list Q) : Q := fold_left Qplus l 0%Q.

(** The state with allowed and used time exchanged. *)
Definition swap_times (st : Calculator.State) : Calculator.State :=
  {| Calculator.dailyRate := Calculator.dailyRate st;
     Calculator.allowedTimeDays := Calculator.usedTimeDays st;
     Calculator.usedTimeDays := Calculator.allowedTimeDays st;
     Calculator.fromCurrency := Calculator.fromCurrency st;
     Calculator.toCurrency := Calculator.toCurrency st;
     Calculator.exchangeRate := Calculator.exchangeRate st;
     Calculator.isLoadingExchangeRate := Calculator.isLoadingExchangeRate st;
     Calculator.calculationResult := Calculator.calculationResult st;
     Calculator.errors := Calculator.errors st |}.

(** A cell holds a finite number that is not negative (is positive). *)
Definition holds_nonneg (f : Calculator.field) : Prop :=
  exists q, f = Calculator.Num (Js.Fin q) /\ (0 <= q)%Q.

Definition holds_positive (f : Calculator.field) : Prop :=
  exists q, f = Calculator.Num (Js.Fin q) /\ (0 < q)%Q.

(** A file with one event of each of the given durations. *)
Definition file_of_durations (l : list Js.number) : CalculatorForm.ProcessedFile :=
  CalculatorForm.mkProcessedFile "sof.pdf"
    (CalculatorForm.mkExtractedData
       (map (fun x =>
               CalculatorForm.mkExtractedEvent "Event" EmptyString
                 EmptyString x None None None) l)).

(** A rate that, stored to four decimals, is a positive number. *)
Definition stores_positive (r : Js.number) : bool :=
  match Js.toFixed 4 r with
  | Js.Fin x => negb (Qle_bool x 0)
  | Js.NaN => false
  end.

(** A rate that four decimals store as it is. *)
Definition stores_unchanged (r : Js.number) : bool :=
  match Js.toFixed 4 r, r with
  | Js.Fin x, Js.Fin y => Qeq_bool x y
  | _, _ => false
  end.

(** * Properties *)

(** ** Sorting *)

Section SortFacts.

Context {A : Type} (cmp : A -> A -> Js.number).

Lemma sort_insert_Permutation x l :
  Permutation (Js.sort_insert cmp x l) (x :: l).
Proof.
  induction l as [|y r IH]; simpl; [reflexivity|].
  destruct (Qle_bool _ _); [reflexivity|].
  rewrite IH. apply perm_swap.
Qed.

Lemma Array_sort_Permutation l : Permutation (Js.Array_sort cmp l) l.
Proof.
  induction l as [|x r IH]; simpl; [reflexivity|].
  rewrite sort_insert_Permutation. by constructor.
Qed.

Lemma Array_sort_length l : length (Js.Array_sort cmp l) = length l.
Proof. apply Permutation_length, Array_sort_Permutation. Qed.

Lemma Array_sort_In x l : In x (Js.Array_sort cmp l) <-> In x l.
Proof.
  split; apply Permutation_in;
    [|symmetry]; apply Array_sort_Permutation.
Qed.

End SortFacts.

Section TimelineFacts.

Context `{host : DateHost}.

Lemma by_timestamp_parsed a b ta tb :
  time_of a = Some ta -> time_of b = Some tb ->
  by_timestamp a b = Js.Fin (inject_Z ta - inject_Z tb).
Proof.
  unfold time_of, by_timestamp, getTime. by intros -> ->.
Qed.

(** When one element is moved past another, both timestamps parse and the
    moved one is strictly later. *)
Lemma moved_past x y :
  Qle_bool (Js.SortCompare by_timestamp x y) 0 = false ->
  exists tx ty, time_of x = Some tx /\ time_of y = Some ty /\ (ty < tx)%Z.
Proof.
  unfold Js.SortCompare, by_timestamp, getTime, time_of.
  destruct (Date_parse (timestamp x)) as [tx|],
           (Date_parse (timestamp y)) as [ty|]; simpl; try discriminate.
  intros Hc. exists tx, ty. repeat split.
  destruct (Z.lt_ge_cases ty tx) as [|Hge]; [done|].
  assert (Qle_bool (inject_Z tx - inject_Z ty) 0 = true); [|congruence].
  apply Qle_bool_iff. unfold Qle; simpl. lia.
Qed.

Lemma kept_before x y tx ty :
  time_of x = Some tx -> time_of y = Some ty ->
  Qle_bool (Js.SortCompare by_timestamp x y) 0 = true -> (tx <= ty)%Z.
Proof.
  intros Hx Hy. unfold Js.SortCompare. rewrite (by_timestamp_parsed _ _ _ _ Hx Hy).
  rewrite Qle_bool_iff. unfold Qle; simpl. lia.
Qed.

Lemma not_later_trans a b c : not_later a b -> not_later b c -> not_later a c.
Proof.
  intros (ta & tb & Ha & Hb & Hab) (tb' & tc & Hb' & Hc & Hbc).
  exists ta, tc. repeat split; try done.
  rewrite Hb in Hb'. injection Hb' as <-. lia.
Qed.

Lemma sort_insert_ascending x l :
  parses x -> Forall parses l -> ascending l ->
  ascending (Js.sort_insert by_timestamp x l).
Proof.
  intros [tx Hx] Hl Hs. induction Hs as [|y r Hr IH Hy]; simpl.
  - repeat constructor.
  - apply Forall_cons in Hl as [[ty Hty] Hl].
    destruct (Qle_bool _ _) eqn:Hc.
    + assert (Hxy : not_later x y).
      { exists tx, ty. eauto using kept_before. }
      constructor; [by constructor|].
      constructor; [done|].
      eapply Forall_impl; [exact Hy|]. eauto using not_later_trans.
    + constructor; [by apply IH|].
      apply moved_past in Hc as (tx' & ty' & Hx' & Hy' & Hlt).
      rewrite (Forall_forall (not_later y)). intros z Hz.
      rewrite sort_insert_Permutation in Hz.
      apply elem_of_cons in Hz as [->|Hz].
      * exists ty', tx'. repeat split; try done. lia.
      * by apply (proj1 (Forall_forall _ _) Hy).
Qed.

Lemma Array_sort_parses l :
  Forall parses l -> Forall parses (Js.Array_sort by_timestamp l).
Proof.
  intros Hl. by rewrite Array_sort_Permutation.
Qed.

Lemma Array_sort_ascending l :
  Forall parses l -> ascending (Js.Array_sort by_timestamp l).
Proof.
  induction 1 as [|x r Hx Hr IH]; simpl; [constructor|].
  apply sort_insert_ascending; auto using Array_sort_parses.
Qed.

(** Insertion keeps the order inside every class of timestamps: the
    elements that [x] moves past have another instant than [x]. *)
Lemma sort_insert_same_order (k : option Z) x l :
  filter (fun e => time_of e = k) (Js.sort_insert by_timestamp x l)
  = filter (fun e => time_of e = k) (x :: l).
Proof.
  induction l as [|y r IH]; simpl; [done|].
  destruct (Qle_bool _ _) eqn:Hc; [done|].
  apply moved_past in Hc as (tx & ty & Hx & Hy & Hlt).
  rewrite filter_cons, IH, !filter_cons.
  repeat case_decide; try done.
  exfalso. assert (Some tx = Some ty) by congruence.
  assert (tx = ty) by congruence. lia.
Qed.

Lemma Array_sort_same_order l :
  same_relative_order l (Js.Array_sort by_timestamp l).
Proof.
  intros k. induction l as [|x r IH]; simpl; [done|].
  by rewrite sort_insert_same_order, !filter_cons, IH.
Qed.

(** The ends of an ascending list. *)
Lemma ascending_head l f e :
  ascending l -> head l = Some f -> In e l -> e = f \/ not_later f e.
Proof.
  intros Hs Hf He. destruct Hs as [|y r Hr Hy]; [done|].
  injection Hf as <-. destruct He as [->|He]; [by left|right].
  by apply (proj1 (Forall_forall _ _) Hy), list_elem_of_In.
Qed.

Lemma ascending_last l z e :
  ascending l -> last l = Some z -> In e l -> e = z \/ not_later e z.
Proof.
  intros Hs. revert z e. induction Hs as [|y r Hr IH Hy]; [done|].
  intros z e Hz He. destruct r as [|y' r'].
  - injection Hz as <-. destruct He as [->|[]]. by left.
  - change (last (y' :: r') = Some z) in Hz.
    destruct He as [<-|He]; [|by apply IH].
    right. apply (proj1 (Forall_forall _ _) Hy).
    by apply last_Some_elem_of in Hz.
Qed.

(** Two ascending arrangements of the same occurrences that order every
    class of equal timestamps alike are the same list: on timestamps that
    parse, a stable sort has one possible result. *)
Lemma stable_ascending_unique l1 l2 :
  Permutation l1 l2 -> ascending l1 -> ascending l2 ->
  (forall k : option Z,
     filter (fun e => time_of e = k) l1 = filter (fun e => time_of e = k) l2) ->
  l1 = l2.
Proof.
  revert l2. induction l1 as [|x t1 IH]; intros l2 Hp Ha1 Ha2 Hf.
  - by apply Permutation_nil in Hp.
  - destruct l2 as [|y t2]; [by apply Permutation_sym, Permutation_nil in Hp|].
    assert (Hxy : x = y).
    { pose proof (Hf (time_of x)) as Hk. rewrite !filter_cons in Hk.
      rewrite decide_True in Hk by done.
      destruct (decide (time_of y = time_of x)) as [|Hne]; [congruence|].
      exfalso. apply Hne.
      assert (Hx2 : x ∈ t2).
      { apply (list_elem_of_filter (fun e => time_of e = time_of x)).
        rewrite <- Hk. left. }
      assert (Hy1 : y ∈ t1).
      { assert (Hy : y ∈ x :: t1) by (rewrite Hp; left).
        apply elem_of_cons in Hy as [->|Hy]; [done|exact Hy]. }
      inversion Ha1 as [|? ? _ Hx]; inversion Ha2 as [|? ? _ Hy]; subst.
      destruct (proj1 (Forall_forall _ _) Hx y Hy1) as (a & b & Ea & Eb & Hab).
      destruct (proj1 (Forall_forall _ _) Hy x Hx2) as (b' & a' & Eb' & Ea' & Hba).
      rewrite Ea in Ea'. rewrite Eb in Eb'. simplify_eq.
      rewrite Ea, Eb. f_equal. lia. }
    subst y. f_equal. apply IH.
    + by apply Permutation_cons_inv in Hp.
    + by inversion Ha1.
    + by inversion Ha2.
    + intros k. specialize (Hf k). rewrite !filter_cons in Hf.
      destruct (decide (time_of x = k)); [by injection Hf|done].
Qed.

(** With timestamps that all parse, the chronological view is the one
    ascending arrangement of the occurrences that keeps the insertion order
    among equal timestamps: the result does not depend on the sorting
    algorithm. *)
Lemma chronological_determined doc l :
  Forall parses (events doc) ->
  Permutation l (events doc) -> ascending l ->
  same_relative_order (events doc) l ->
  l = getSofEventsChronological doc.
Proof.
  intros Hp Hperm Hasc Hst. apply stable_ascending_unique.
  - rewrite Hperm. symmetry. apply Array_sort_Permutation.
  - done.
  - by apply Array_sort_ascending.
  - intros k. rewrite Hst. symmetry. apply Array_sort_same_order.
Qed.

End TimelineFacts.

Section TotalTimeFacts.

Context `{host : DateHost}.

Lemma chronological_ends doc :
  (2 <= length (events doc))%nat ->
  exists f z, head (getSofEventsChronological doc) = Some f
           /\ last (getSofEventsChronological doc) = Some z.
Proof.
  intros Hlen. unfold getSofEventsChronological.
  pose proof (Array_sort_length by_timestamp (events doc)) as Hl.
  destruct (Js.Array_sort by_timestamp (events doc)) as [|f r] eqn:E.
  - simpl in Hl. lia.
  - exists f. destruct (last (f :: r)) as [z|] eqn:Ez; [by exists z|].
    by apply last_None in Ez.
Qed.

Lemma calculateTotalTime_ends doc f z :
  (2 <= length (events doc))%nat ->
  head (getSofEventsChronological doc) = Some f ->
  last (getSofEventsChronological doc) = Some z ->
  calculateTotalTime doc
  = Some (Js.div_lit (Js.sub (getTime (timestamp z)) (getTime (timestamp f)))
            (inject_Z 3600000)).
Proof.
  intros Hlen Hf Hz. unfold calculateTotalTime.
  destruct (Nat.ltb_spec (length (events doc)) 2) as [|_]; [lia|].
  by rewrite Hf, Hz.
Qed.

Lemma getTime_parsed e t : time_of e = Some t -> getTime (timestamp e) = Js.of_Z t.
Proof. unfold time_of, getTime. by intros ->. Qed.

Lemma hours_between_nonneg t1 t2 : (t1 <= t2)%Z -> (0 <= hours_between t1 t2)%Q.
Proof.
  intros Hle. unfold hours_between, Qdiv.
  apply Qmult_le_0_compat; [|by compute].
  unfold Qle; simpl. lia.
Qed.

(** When every occurrence carries the instant [t], so do both ends of the
    chronological view. *)
Lemma same_instant_ends doc t :
  (2 <= length (events doc))%nat ->
  Forall (fun e => time_of e = Some t) (events doc) ->
  exists f z,
    head (getSofEventsChronological doc) = Some f /\
    last (getSofEventsChronological doc) = Some z /\
    time_of f = Some t /\ time_of z = Some t.
Proof.
  intros Hlen Hall. destruct (chronological_ends doc Hlen) as (f & z & Hf & Hz).
  exists f, z. repeat split; try done.
  - apply (proj1 (Forall_forall _ _) Hall).
    apply head_Some_elem_of in Hf.
    unfold getSofEventsChronological in Hf. by rewrite Array_sort_Permutation in Hf.
  - apply (proj1 (Forall_forall _ _) Hall).
    apply last_Some_elem_of in Hz.
    unfold getSofEventsChronological in Hz. by rewrite Array_sort_Permutation in Hz.
Qed.

End TotalTimeFacts.

(** C7 (amended): the chronological view is always a rearrangement of the
    occurrences (none is dropped); when every timestamp parses it is
    ascending by parsed timestamp and occurrences with equal timestamps keep
    their insertion order.  (Nothing moves an occurrence with an
    unparseable timestamp to the end.) *)
Theorem chronological_sorted_stable `{host : DateHost} (doc : SofDocument) :
  Permutation (getSofEventsChronological doc) (events doc) /\
  (Forall parses (events doc) ->
   ascending (getSofEventsChronological doc) /\
   same_relative_order (events doc) (getSofEventsChronological doc)).
Proof.
  split; [apply Array_sort_Permutation|].
  intros Hp. split; [by apply Array_sort_ascending|apply Array_sort_same_order].
Qed.

(** C8 (amended): [calculateTotalTime] returns [null] exactly when the
    timeline has fewer than two occurrences; with two or more occurrences
    whose timestamps all parse it returns the hours from the earliest to the
    latest instant, a non-negative number, unrounded. *)
Theorem calculateTotalTime_hours `{host : DateHost} (doc : SofDocument) :
  (calculateTotalTime doc = None <-> (length (events doc) < 2)%nat) /\
  ((2 <= length (events doc))%nat -> Forall parses (events doc) ->
   exists t1 t2,
     earliest t1 (events doc) /\ latest t2 (events doc) /\
     calculateTotalTime doc = Some (Js.Fin (hours_between t1 t2)) /\
     (0 <= hours_between t1 t2)%Q).
Proof.
  split.
  - split.
    + intros Hn. destruct (Nat.lt_ge_cases (length (events doc)) 2) as [|Hge]; [done|].
      destruct (chronological_ends doc Hge) as (f & z & Hf & Hz).
      by rewrite (calculateTotalTime_ends doc f z Hge Hf Hz) in Hn.
    + intros Hlt. unfold calculateTotalTime.
      by destruct (Nat.ltb_spec (length (events doc)) 2) as [|]; [|lia].
  - intros Hge Hp.
    destruct (chronological_ends doc Hge) as (f & z & Hf & Hz).
    pose proof (Array_sort_ascending _ Hp) as Hs.
    pose proof (Array_sort_parses _ Hp) as Hps.
    fold (getSofEventsChronological doc) in Hs, Hps.
    assert (Hfin : In f (getSofEventsChronological doc)).
    { destruct (getSofEventsChronological doc); [done|].
      injection Hf as ->. by left. }
    assert (Hzin : In z (getSofEventsChronological doc)).
    { by apply list_elem_of_In, last_Some_elem_of. }
    destruct (proj1 (Forall_forall _ _) Hps f (proj2 (list_elem_of_In _ _) Hfin)) as [tf Htf].
    destruct (proj1 (Forall_forall _ _) Hps z (proj2 (list_elem_of_In _ _) Hzin)) as [tz Htz].
    exists tf, tz. repeat split.
    + exists f. split; [by apply (Array_sort_In by_timestamp)|done].
    + intros e t' He Ht'. apply (Array_sort_In by_timestamp) in He.
      destruct (ascending_head _ f e Hs Hf He) as [->|(ta & tb & Ha & Hb & Hab)];
        [assert (Some tf = Some t') by congruence|
         assert (Some tf = Some ta /\ Some tb = Some t') as [] by (split; congruence)];
        simplify_eq; lia.
    + exists z. split; [by apply (Array_sort_In by_timestamp)|done].
    + intros e t' He Ht'. apply (Array_sort_In by_timestamp) in He.
      destruct (ascending_last _ z e Hs Hz He) as [->|(ta & tb & Ha & Hb & Hab)];
        [assert (Some tz = Some t') by congruence|
         assert (Some t' = Some ta /\ Some tb = Some tz) as [] by (split; congruence)];
        simplify_eq; lia.
    + rewrite (calculateTotalTime_ends doc f z Hge Hf Hz).
      by rewrite (getTime_parsed _ _ Htf), (getTime_parsed _ _ Htz).
    + apply hours_between_nonneg.
      destruct (ascending_last _ z f Hs Hz Hfin) as [->|(ta & tb & Ha & Hb & Hab)];
        [assert (Some tf = Some tz) by congruence|
         assert (Some tf = Some ta /\ Some tb = Some tz) as [] by (split; congruence)];
        simplify_eq; lia.
Qed.

(** C10 (amended): when the timeline has at least two occurrences, every
    timestamp parses and the earliest and the latest instant are equal,
    [calculateTotalTime] returns 0, and the operational summary of
    [getSofResultSection] reports [totalTimeInPort] as [null]. *)
Theorem zero_total_shown_as_null `{host : DateHost} (doc : SofDocument) (t : Z) :
  (2 <= length (events doc))%nat ->
  Forall parses (events doc) ->
  earliest t (events doc) -> latest t (events doc) ->
  (exists v, calculateTotalTime doc = Some v /\ Js.eqv v (Js.Fin 0)) /\
  totalTimeInPort (operationalSummary (getSofResultSection doc)) = None.
Proof.
  intros Hge Hp [_ Hmin] [_ Hmax].
  assert (Hall : Forall (fun e => time_of e = Some t) (events doc)).
  { apply Forall_forall. intros e He.
    destruct (proj1 (Forall_forall _ _) Hp e He) as [t' Ht'].
    apply list_elem_of_In in He.
    pose proof (Hmin e t' He Ht'). pose proof (Hmax e t' He Ht').
    rewrite Ht'. f_equal. lia. }
  destruct (same_instant_ends doc t Hge Hall) as (f & z & Hf & Hz & Htf & Htz).
  pose proof (calculateTotalTime_ends doc f z Hge Hf Hz) as Hc.
  rewrite (getTime_parsed _ _ Htf), (getTime_parsed _ _ Htz) in Hc.
  assert (Hq : ((inject_Z t - inject_Z t) / inject_Z 3600000 == 0)%Q).
  { unfold Qeq; simpl. lia. }
  split.
  - eexists. split; [exact Hc|]. exact Hq.
  - simpl. rewrite Hc. simpl.
    apply Qeq_bool_iff in Hq. by rewrite Hq.
Qed.

(** ** The catalog lookup *)

Lemma getSofEventById_Some eventId event :
  getSofEventById eventId = Some event ->
  In event sofEvents /\ ev_id event = eventId.
Proof.
  intros H. apply find_some in H as [Hin Heq].
  split; [done|]. by apply String.eqb_eq.
Qed.

Lemma getSofEventById_None eventId :
  getSofEventById eventId = None <-> ~ In eventId (map ev_id sofEvents).
Proof.
  unfold getSofEventById, Js.Array_find. split.
  - intros H Hin. apply in_map_iff in Hin as (e & <- & Hin).
    apply (find_none _ _ H) in Hin. by rewrite String.eqb_refl in Hin.
  - intros Hn. destruct (find _ _) as [e|] eqn:E; [|done].
    apply find_some in E as [Hin Heq]. apply String.eqb_eq in Heq.
    destruct Hn. apply in_map_iff. eauto.
Qed.

Lemma getSofEventById_in_catalog eventId :
  In eventId (map ev_id sofEvents) ->
  exists event, getSofEventById eventId = Some event.
Proof.
  intros Hin. destruct (getSofEventById eventId) as [e|] eqn:E; [eauto|].
  by apply getSofEventById_None in E.
Qed.

(** ** The store *)

Lemma alter_new {A} (f : A -> A) (h : list A) (a : A) :
  alter f (length h) (h ++ [a]) = h ++ [f a].
Proof.
  rewrite alter_app_r_alt by lia. by rewrite Nat.sub_diag.
Qed.

Section StoreFacts.

Variables (h : Store.heap) (o : Store.DocumentObject).
Hypothesis allocated : (Store.events_ref o < length h)%nat.

Lemma view_after_alloc a : Store.view (h ++ [a]) o = Store.view h o.
Proof. unfold Store.view. by rewrite lookup_app_l. Qed.

Lemma view_new a :
  Store.view (h ++ [a]) (Store.with_ref o (length h))
  = with_events (Store.header o) a.
Proof.
  unfold Store.view; simpl.
  by rewrite lookup_app_r, Nat.sub_diag.
Qed.

End StoreFacts.

Lemma events_with_events d a : events (with_events d a) = a.
Proof. done. Qed.

Lemma out_of_bounds_spec d i :
  out_of_bounds d i = false <-> inside i (events d).
Proof.
  unfold out_of_bounds, inside. rewrite orb_false_iff, Z.ltb_ge, Z.geb_leb, Z.leb_gt.
  lia.
Qed.

Lemma Array_splice_one {A} (a : list A) (i : Z) :
  inside i a ->
  Js.Array_splice a i 1 = take (Z.to_nat i) a ++ drop (S (Z.to_nat i)) a.
Proof.
  unfold inside, Js.Array_splice. intros Hi.
  destruct (Z.ltb_spec i 0) as [|_]; [lia|].
  rewrite Z.min_l by lia. rewrite Z.min_l by lia.
  do 2 f_equal. lia.
Qed.

Lemma Store_removeEventFromSof_eq h o i :
  Store.removeEventFromSof o i h
  = if out_of_bounds (Store.view h o) i then (Throw (bounds_error i), h)
    else (Return (Store.with_ref o (length h)),
          h ++ [Js.Array_splice (events (Store.view h o)) i 1]).
Proof.
  unfold Store.removeEventFromSof, Store.bind, Store.read, out_of_bounds; simpl.
  destruct (_ || _); [done|].
  unfold Store.alloc, Store.modify, Store.ret. by rewrite alter_new.
Qed.

Lemma Store_updateEventInSof_eq h o i updates :
  Store.updateEventInSof o i updates h
  = if out_of_bounds (Store.view h o) i then (Throw (bounds_error i), h)
    else (Return (Store.with_ref o (length h)),
          h ++ [alter (fun e => spread_updates e updates) (Z.to_nat i)
                  (events (Store.view h o))]).
Proof.
  unfold Store.updateEventInSof, Store.bind, Store.read, out_of_bounds; simpl.
  destruct (_ || _); [done|].
  unfold Store.alloc, Store.modify, Store.ret. by rewrite alter_new.
Qed.

(** C5: for an id that is not in the catalog [addEventToSof] throws an
    error whose message names the id, and the store, hence the document and
    its occurrences, is as before; for an id of the catalog it returns a new
    document whose occurrences are the old ones followed by the new record,
    and the document it was given is unchanged. *)
Theorem addEventToSof_outcome (h : Store.heap) (o : Store.DocumentObject)
    (eventId ts : string) (rem loc : option string) :
  (Store.events_ref o < length h)%nat ->
  (~ In eventId (map ev_id sofEvents) ->
   Store.addEventToSof o eventId ts rem loc h
   = (Throw (mkError ("Event with ID " +:+ eventId +:+ " not found")), h) /\
   addEventToSof (Store.view h o) eventId ts rem loc
   = Throw (mkError ("Event with ID " +:+ eventId +:+ " not found"))) /\
  (In eventId (map ev_id sofEvents) ->
   exists o' h' r,
     Store.addEventToSof o eventId ts rem loc h = (Return o', h') /\
     addEventToSof (Store.view h o) eventId ts rem loc
     = Return (Store.view h' o') /\
     Store.view h' o = Store.view h o /\
     events (Store.view h' o') = events (Store.view h o) ++ [r] /\
     id r = eventId /\ timestamp r = ts /\ remarks r = rem /\ location r = loc).
Proof.
  intros Hal. split.
  - intros Hn. apply getSofEventById_None in Hn.
    unfold Store.addEventToSof, addEventToSof. by rewrite Hn.
  - intros Hin. destruct (getSofEventById_in_catalog _ Hin) as [event He].
    pose proof (getSofEventById_Some _ _ He) as [_ Hid].
    set (old := default [] (h !! Store.events_ref o)).
    set (r := mkEventRecord (Store.header o) event ts rem loc).
    exists (Store.with_ref o (length h)), (h ++ [old ++ [r]]), r.
    unfold Store.addEventToSof, addEventToSof. rewrite He.
    unfold Store.bind, Store.read, Store.alloc, Store.ret. fold old r.
    rewrite view_new, view_after_alloc by done.
    repeat split; try done.
Qed.

(** C6: [removeEventFromSof] and [updateEventInSof] throw an error exactly
    for an index outside [0, length), and then the store is as before; the
    message of the error names the index (written in decimal, for a safe
    integer).  For an index inside, [removeEventFromSof] returns a new
    document without the occurrence at that index; [updateEventInSof]
    returns one in which only that occurrence differs: it keeps its event
    definition, and each of its timestamp, remarks, location, vessel name
    and port name is the value that the updates give, or the old value
    where they give none.  The document they were given is unchanged. *)
Theorem index_operations_outcome (h : Store.heap) (o : Store.DocumentObject)
    (i : Z) (updates : SofEventUpdates) :
  (Store.events_ref o < length h)%nat ->
  let old := events (Store.view h o) in
  (~ inside i old ->
   exists err,
     Store.removeEventFromSof o i h = (Throw err, h) /\
     Store.updateEventInSof o i updates h = (Throw err, h) /\
     removeEventFromSof (Store.view h o) i = Throw err /\
     updateEventInSof (Store.view h o) i updates = Throw err /\
     ((Z.abs i < 2 ^ 53)%Z ->
      err = mkError ("Event index " +:+ NilZero.string_of_int (Z.to_int i)
                     +:+ " is out of bounds"))) /\
  (inside i old ->
   (exists o' h',
      Store.removeEventFromSof o i h = (Return o', h') /\
      removeEventFromSof (Store.view h o) i = Return (Store.view h' o') /\
      Store.view h' o = Store.view h o /\
      events (Store.view h' o')
      = take (Z.to_nat i) old ++ drop (S (Z.to_nat i)) old) /\
   (exists o' h' e e',
      Store.updateEventInSof o i updates h = (Return o', h') /\
      updateEventInSof (Store.view h o) i updates = Return (Store.view h' o') /\
      Store.view h' o = Store.view h o /\
      length (events (Store.view h' o')) = length old /\
      (forall j, j <> Z.to_nat i ->
                 events (Store.view h' o') !! j = old !! j) /\
      old !! Z.to_nat i = Some e /\
      events (Store.view h' o') !! Z.to_nat i = Some e' /\
      same_definition e e' /\
      timestamp e' = default (timestamp e) (upd_timestamp updates) /\
      remarks e' = default (remarks e) (upd_remarks updates) /\
      location e' = default (location e) (upd_location updates) /\
      vesselName e' = default (vesselName e) (upd_vesselName updates) /\
      portName e' = default (portName e) (upd_portName updates))).
Proof.
  intros Hal old.
  pose proof (out_of_bounds_spec (Store.view h o) i) as Hspec. fold old in Hspec.
  rewrite Store_removeEventFromSof_eq, Store_updateEventInSof_eq.
  unfold removeEventFromSof, updateEventInSof. fold old.
  destruct (out_of_bounds (Store.view h o) i) eqn:Hb; split.
  - intros _. exists (bounds_error i). by repeat split.
  - intros Hin. apply Hspec in Hin. discriminate.
  - intros Hout. destruct Hout. by apply Hspec.
  - intros Hin. split.
    + exists (Store.with_ref o (length h)), (h ++ [Js.Array_splice old i 1]).
      rewrite view_new, view_after_alloc by done.
      repeat split; try done.
      rewrite events_with_events. by apply Array_splice_one.
    + destruct (lookup_lt_is_Some_2 old (Z.to_nat i)) as [e He].
      { unfold inside in Hin. lia. }
      exists (Store.with_ref o (length h)),
        (h ++ [alter (fun e => spread_updates e updates) (Z.to_nat i) old]),
        e, (spread_updates e updates).
      rewrite view_new, view_after_alloc, events_with_events by done.
      repeat split; try done.
      * apply length_alter.
      * intros j Hj. by apply list_lookup_alter_ne.
      * by rewrite list_lookup_alter_eq, He.
Qed.

(** ** The export *)

Lemma append_assoc (a b c : string) : (a +:+ b) +:+ c = a +:+ (b +:+ c).
Proof.
  induction a as [|x a IH]; [done|].
  change (String x ((a +:+ b) +:+ c) = String x (a +:+ b +:+ c)). by f_equal.
Qed.

Lemma append_empty_r (a : string) : a +:+ EmptyString = a.
Proof.
  induction a as [|x a IH]; [done|].
  change (String x (a +:+ EmptyString) = String x a). by f_equal.
Qed.

Lemma csv_row_line e : Js.Array_join "," (csv_row e) +:+ newline = csv_line e.
Proof.
  unfold csv_line, csv_row, Js.Array_join. by rewrite !append_assoc.
Qed.

Lemma export_fold acc l :
  fold_left
    (fun csv event => csv +:+ (Js.Array_join "," (csv_row event) +:+ newline))
    l acc
  = acc +:+ fold_right String.append EmptyString (map csv_line l).
Proof.
  revert acc. induction l as [|e r IH]; intros acc; cbn [fold_left map fold_right].
  - by rewrite append_empty_r.
  - by rewrite IH, csv_row_line, append_assoc.
Qed.

Lemma prefix_append a b : String.prefix a (a +:+ b) = true.
Proof.
  induction a as [|x a IH]; [by destruct b|].
  change (String.prefix (String x a) (String x (a +:+ b)) = true).
  cbn. destruct (ascii_dec x x); [done|congruence].
Qed.

Lemma count_char_append c a b :
  count_char c (a +:+ b) = (count_char c a + count_char c b)%nat.
Proof.
  induction a as [|x a IH]; [done|].
  change (count_char c (String x (a +:+ b))
          = (count_char c (String x a) + count_char c b)%nat).
  cbn [count_char]. rewrite IH. lia.
Qed.

Lemma category_value_single_line c : single_line (category_value c).
Proof. by destruct c. Qed.

(** C9 (amended): the export is the header line, which is the text
    [Event Category,Event Name,Timestamp,Location,Remarks], followed by one
    line per occurrence in the order in which the occurrences are stored in
    the document (their insertion order, not the chronological one).  The
    line of an occurrence is its category, name, timestamp, location and
    remarks, each between two double quotes and separated by commas; the
    texts are written as they are, nothing in them is escaped, and an absent
    or empty location or remarks gives a pair of quotes with nothing between
    them.  When no name, timestamp, location or remarks holds a line break,
    the export has one line break per occurrence after that of the
    header. *)
Theorem exportSofToCsv_lines (doc : SofDocument) :
  let q := String (ascii_of_nat 34) EmptyString in
  let nl := String (ascii_of_nat 10) EmptyString in
  let line (e : SofEventRecord) :=
    q +:+ category_value (category e) +:+ q +:+ "," +:+
    q +:+ name e +:+ q +:+ "," +:+
    q +:+ timestamp e +:+ q +:+ "," +:+
    q +:+ default EmptyString (location e) +:+ q +:+ "," +:+
    q +:+ default EmptyString (remarks e) +:+ q +:+ nl in
  exportSofToCsv doc
  = "Event Category,Event Name,Timestamp,Location,Remarks" +:+ nl +:+
    fold_right String.append EmptyString (map line (events doc)) /\
  (Forall (fun e => single_line (name e) /\ single_line (timestamp e) /\
                    single_line (default EmptyString (location e)) /\
                    single_line (default EmptyString (remarks e)))
     (events doc) ->
   count_char (ascii_of_nat 10) (exportSofToCsv doc) = S (length (events doc))).
Proof.
  intros q nl line.
  assert (Hline : forall e, csv_line e = line e).
  { intros e. unfold csv_line, line, quoted. fold q nl.
    change dquote with q. change newline with nl.
    rewrite !append_assoc.
    by destruct (location e) as [[|]|], (remarks e) as [[|]|]. }
  assert (H : exportSofToCsv doc
              = "Event Category,Event Name,Timestamp,Location,Remarks" +:+ nl +:+
                fold_right String.append EmptyString (map line (events doc))).
  { assert (Hm : map csv_line (events doc) = map line (events doc))
      by (apply map_ext; exact Hline).
    unfold exportSofToCsv. rewrite export_fold, Hm. unfold csv_header.
    change newline with nl. by rewrite append_assoc. }
  split; [exact H|].
  intros Hs. rewrite H, !count_char_append.
  change (count_char (ascii_of_nat 10)
            "Event Category,Event Name,Timestamp,Location,Remarks") with 0%nat.
  change (count_char (ascii_of_nat 10) nl) with 1%nat.
  cbn [Nat.add]. f_equal. clear H.
  induction Hs as [|e l (Hn & Ht & Hl & Hr) _ IH]; [done|].
  cbn [map fold_right length]. rewrite count_char_append, IH.
  unfold line. rewrite !count_char_append.
  pose proof (category_value_single_line (category e)) as Hc.
  unfold single_line in *. rewrite Hc, Hn, Ht, Hl, Hr.
  reflexivity.
Qed.

(** ** The result section *)

Lemma In_push_pair a b d pairs p :
  In p (push_pair a b d pairs) <->
  In p pairs \/ (a = Some (startEvent p) /\ b = Some (endEvent p) /\ duration p = d).
Proof.
  unfold push_pair. destruct a as [s|], b as [e|];
    try (split; [by left|by intros [?|(? & ? & ?)]]).
  rewrite in_app_iff. simpl. split.
  - intros [|[<-|[]]]; auto.
  - intros [|(? & ? & ?)]; [auto|]. right. left.
    destruct p; simpl in *. by simplify_eq.
Qed.

Lemma find_by_id_Some key l e :
  find_by_id key l = Some e -> In e l /\ id e = key.
Proof.
  intros H. apply find_some in H as [Hin Heq].
  split; [done|]. by apply String.eqb_eq.
Qed.

Lemma find_by_id_occurs key l :
  occurs key l -> exists e, find_by_id key l = Some e.
Proof.
  intros (e & Hin & Hid). destruct (find_by_id key l) as [e'|] eqn:E; [eauto|].
  apply (find_none _ _ E) in Hin. simpl in Hin.
  rewrite Hid, String.eqb_refl in Hin. discriminate.
Qed.

Section ResultFacts.

Context `{host : DateHost}.

Lemma occurs_chronological key doc :
  occurs key (events doc) -> occurs key (getSofEventsChronological doc).
Proof.
  intros (e & Hin & Hid). exists e. split; [|done].
  by apply (Array_sort_In by_timestamp).
Qed.

Lemma In_eventPairs doc p :
  In p (eventPairs (getSofResultSection doc)) <->
  exists s e d,
    In (s, e, d) milestone_pairs /\
    find_by_id s (getSofEventsChronological doc) = Some (startEvent p) /\
    find_by_id e (getSofEventsChronological doc) = Some (endEvent p) /\
    duration p = d.
Proof.
  unfold getSofResultSection; cbn [eventPairs].
  rewrite !In_push_pair. unfold milestone_pairs. cbn [In]. split.
  - intros [[[[[]|H]|H]|H]|H]; destruct H as (? & ? & ?);
      eexists _, _, _; (split; [|split; [eassumption|split; [eassumption|done]]]);
      auto 10.
  - intros (s & e & d & Hin & Hs & He & Hd).
    destruct Hin as [Hin|[Hin|[Hin|[Hin|[]]]]]; injection Hin as <- <- <-; auto 10.
Qed.

End ResultFacts.

(** C1 (amended): for each adjacent milestone pair, when both events occur
    in the timeline the result section reports a pairing of their first
    chronological occurrences, and the duration of every reported pairing is
    the constant attached to that pair (2.5, 1, 11.5 and 1.75 hours), whatever
    the timestamps of the two occurrences. *)
Theorem eventPairs_fixed_durations `{host : DateHost} (doc : SofDocument) :
  (forall s e d, In (s, e, d) milestone_pairs ->
     occurs s (events doc) -> occurs e (events doc) ->
     exists p, In p (eventPairs (getSofResultSection doc)) /\
               id (startEvent p) = s /\ id (endEvent p) = e /\ duration p = d) /\
  (forall p, In p (eventPairs (getSofResultSection doc)) ->
     In (startEvent p) (events doc) /\ In (endEvent p) (events doc) /\
     find_by_id (id (startEvent p)) (getSofEventsChronological doc)
     = Some (startEvent p) /\
     find_by_id (id (endEvent p)) (getSofEventsChronological doc)
     = Some (endEvent p) /\
     In (id (startEvent p), id (endEvent p), duration p) milestone_pairs).
Proof.
  split.
  - intros s e d Hin Hs He.
    destruct (find_by_id_occurs _ _ (occurs_chronological _ _ Hs)) as [a Ha].
    destruct (find_by_id_occurs _ _ (occurs_chronological _ _ He)) as [b Hb].
    exists (mkPair a b d). split.
    + apply In_eventPairs. exists s, e, d. by repeat split.
    + apply find_by_id_Some in Ha as [_ Ha], Hb as [_ Hb]. by repeat split.
  - intros p Hp. apply In_eventPairs in Hp as (s & e & d & Hin & Hs & He & Hd).
    destruct (find_by_id_Some _ _ _ Hs) as [Hs1 Hs2].
    destruct (find_by_id_Some _ _ _ He) as [He1 He2].
    apply (proj1 (Array_sort_In by_timestamp _ _)) in Hs1, He1.
    rewrite Hs2, He2, Hd. by repeat split.
Qed.

(** C3 (amended): every formatted event of the result section carries the
    anomaly text "Clean", whether or not a field required by its definition
    is missing; a missing location is shown as "-" and missing remarks as
    the empty string. *)
Theorem formattedEvents_always_clean `{host : DateHost} (doc : SofDocument) :
  Forall2
    (fun e f =>
       fe_anomalies f = "Clean" /\ fe_type f = name e /\
       fe_startTime f = timestamp e /\
       fe_location f = Js.or_else (location e) "-" /\
       fe_remarks f = Js.or_else (remarks e) EmptyString)
    (getSofEventsChronological doc)
    (formattedEvents (getSofResultSection doc)).
Proof.
  unfold getSofResultSection; cbn [formattedEvents].
  apply Forall2_fmap_r, Forall_Forall2_diag, Forall_forall.
  intros e _. by repeat split.
Qed.

(** ** The calculator *)

Import Calculator.

Lemma cents_comp q q' : (q == q')%Q -> (cents q == cents q')%Q.
Proof. intros H. unfold cents. by rewrite H. Qed.

Lemma cents_nonneg q : (0 <= q)%Q -> (0 <= cents q)%Q.
Proof.
  intros H. unfold cents, Qdiv. apply Qmult_le_0_compat; [|by compute].
  change 0%Q with (inject_Z 0). rewrite <- Zle_Qle.
  change 0%Z with (Qfloor 0). apply Qfloor_resp_le.
  apply Qle_trans with (q * inject_Z 100)%Q.
  - apply Qmult_le_0_compat; [done|by compute].
  - rewrite <- (Qplus_0_r (q * inject_Z 100)) at 1.
    apply Qplus_le_r. by compute.
Qed.

Lemma cents_pos q : (1 # 200 <= q)%Q -> (0 < cents q)%Q.
Proof.
  intros H. unfold cents, Qdiv.
  apply Qmult_lt_0_compat; [|by compute].
  change 0%Q with (inject_Z 0). rewrite <- Zlt_Qlt.
  apply Z.lt_le_trans with (Qfloor 1); [by compute|].
  apply Qfloor_resp_le.
  apply Qle_trans with ((1 # 200) * inject_Z 100 + (1 # 2))%Q; [by compute|].
  apply Qplus_le_l, Qmult_le_compat_r; [done|by compute].
Qed.

Lemma cents_zero : (cents 0 == 0)%Q.
Proof. by compute. Qed.

(** [toFixed(2)] read back as a number, on a value that is not negative. *)
Lemma toFixed2_nonneg q :
  (0 <= q)%Q -> exists q', Js.toFixed 2 (Js.Fin q) = Js.Fin q' /\ (q' == cents q)%Q.
Proof.
  intros H. unfold Js.toFixed.
  apply Qle_bool_iff in H as Hb. rewrite Hb.
  eexists. split; [reflexivity|].
  unfold cents. change (inject_Z (10 ^ Z.of_nat 2)) with (inject_Z 100).
  by rewrite (Qabs_pos q H).
Qed.

(** The state after [calculateDemurrage] on inputs that pass validation. *)
Lemma calculateDemurrage_valid st r a u x :
  valid_inputs st r a u x ->
  calculationResult (calculateDemurrage st)
  = Some {| type := if Qle_bool (u - a) 0 then Despatch else Demurrage;
            amount := Js.toFixed 2 (Js.Fin
                        ((if Qle_bool (u - a) 0 then Qabs (u - a) else u - a) * r));
            currency := fromCurrency st;
            convertedAmount :=
              Some (Js.toFixed 2 (Js.Fin
                ((if Qle_bool (u - a) 0 then Qabs (u - a) else u - a) * r * x)));
            convertedCurrency := Some (toCurrency st) |}.
Proof.
  intros (Hr & Ha & Hu & Hx & Hr0 & Ha0 & Hu0 & Hx0).
  unfold calculateDemurrage, validateInputs, rejected_below_zero,
    rejected_up_to_zero.
  rewrite Hr, Ha, Hu, Hx. cbn [Number Js.isNaN Js.lt Js.gt Js.le orb].
  apply Qle_bool_iff in Hr0, Ha0, Hu0. rewrite Hr0, Ha0, Hu0.
  assert (Hxb : Qle_bool x 0 = false).
  { destruct (Qle_bool x 0) eqn:E; [|done].
    apply Qle_bool_iff in E. by apply Qle_not_lt in E. }
  rewrite Hxb. cbn [negb set_error_if].
  change (size (∅ : gmap string string) =? 0)%nat with true. cbn [negb].
  cbn [Js.sub Js.lift2 Js.gt]. by destruct (Qle_bool (u - a) 0).
Qed.

Lemma excess_sign (u a : Q) :
  if Qle_bool (u - a) 0 then (u <= a)%Q else (a < u)%Q.
Proof.
  destruct (Qle_bool (u - a) 0) eqn:E.
  - apply Qle_bool_iff in E. apply (Qplus_le_l _ _ (- a)).
    by rewrite Qplus_opp_r.
  - apply Qnot_le_lt. intros H. apply (Qplus_le_l _ _ (- a)) in H.
    rewrite Qplus_opp_r in H. apply Qle_bool_iff in H.
    unfold Qminus in E. congruence.
Qed.

Lemma Qabs_excess_le (u a : Q) : (u <= a)%Q -> (Qabs (u - a) == a - u)%Q.
Proof.
  intros H. rewrite Qabs_neg.
  - ring.
  - apply (Qplus_le_l _ _ a). ring_simplify. done.
Qed.

Lemma cents_close p : (Qabs (cents p - p) <= 1 # 200)%Q.
Proof.
  unfold cents.
  pose proof (Qfloor_le (p * inject_Z 100 + (1 # 2))) as Hl.
  pose proof (Qlt_floor (p * inject_Z 100 + (1 # 2))) as Hu.
  rewrite inject_Z_plus in Hu. change (inject_Z 1) with 1%Q in Hu.
  set (n := inject_Z (Qfloor (p * inject_Z 100 + (1 # 2)))) in *.
  apply Qabs_Qle_condition. unfold Qdiv.
  change (/ inject_Z 100)%Q with (1 # 100)%Q.
  change (inject_Z 100) with 100%Q in *.
  clearbody n. split; lra.
Qed.

Lemma slack_nonneg k p : (0 <= slack k p)%Q.
Proof.
  unfold slack. apply Qmult_le_0_compat; [|by compute].
  apply Qmult_le_0_compat; [|apply Qabs_nonneg].
  change 0%Q with (inject_Z 0). rewrite <- Zle_Qle. lia.
Qed.

(** The exact rounding to hundredths lies within the margin. *)
Lemma cents_to_two_decimals k q p :
  (q == cents p)%Q -> to_two_decimals k q p.
Proof.
  intros Hq. split.
  - exists (Qfloor (p * inject_Z 100 + (1 # 2))).
    assert (E : (q - inject_Z (Qfloor (p * inject_Z 100 + (1 # 2))) / 100 == 0)%Q).
    { rewrite Hq. unfold cents. change (inject_Z 100) with 100%Q. ring. }
    rewrite E. apply slack_nonneg.
  - rewrite Hq. pose proof (cents_close p). pose proof (slack_nonneg k p). lra.
Qed.

(** C4 (amended): on valid inputs whose product binary64 holds, the result
    is Demurrage when the used time exceeds the allowed time and Despatch
    otherwise; its amount is the product of the time difference and the
    daily rate to two decimals (a whole number of hundredths within half a
    hundredth of the product, up to the rounding of binary64), never
    negative, 0 when used and allowed time are equal, and strictly positive
    as soon as the product reaches one hundredth. *)
Theorem calculateDemurrage_sign_law (st : State) (r a u x : Q) :
  valid_inputs st r a u x ->
  in_range (Qabs (u - a) * r) ->
  exists res q,
    calculationResult (calculateDemurrage st) = Some res /\
    amount res = Js.Fin q /\ (0 <= q)%Q /\
    to_two_decimals 3 q (Qabs (u - a) * r) /\
    ((1 # 100 <= Qabs (u - a) * r)%Q -> (0 < q)%Q) /\
    ((a < u)%Q -> type res = Demurrage) /\
    ((u <= a)%Q -> type res = Despatch) /\
    ((u == a)%Q -> (q == 0)%Q).
Proof.
  intros Hv _. pose proof (calculateDemurrage_valid _ _ _ _ _ Hv) as Hres.
  destruct Hv as (_ & _ & _ & _ & Hr0 & _ & _ & _).
  pose proof (excess_sign u a) as Hs.
  assert (Hab : ((if Qle_bool (u - a) 0 then Qabs (u - a) else u - a)
                 == Qabs (u - a))%Q).
  { destruct (Qle_bool (u - a) 0); [reflexivity|].
    symmetry. apply Qabs_pos. lra. }
  set (m := if Qle_bool (u - a) 0 then Qabs (u - a) else (u - a)%Q) in *.
  assert (Hp : (0 <= m * r)%Q).
  { apply Qmult_le_0_compat; [|done]. rewrite Hab. apply Qabs_nonneg. }
  destruct (toFixed2_nonneg _ Hp) as (q & Hq & Hc).
  assert (Hc' : (q == cents (Qabs (u - a) * r))%Q).
  { rewrite Hc. apply cents_comp. by rewrite Hab. }
  eexists _, q. split; [exact Hres|]. cbn [amount type].
  split; [exact Hq|]. split; [rewrite Hc; by apply cents_nonneg|].
  split; [by apply cents_to_two_decimals|].
  split; [|split; [|split]].
  - intros Hh. rewrite Hc'. apply cents_pos. lra.
  - intros Hlt. destruct (Qle_bool (u - a) 0); [lra|done].
  - intros Hle. destruct (Qle_bool (u - a) 0); [done|lra].
  - intros Heq. rewrite Hc', <- cents_zero. apply cents_comp.
    rewrite Qabs_excess_le by lra. rewrite Heq. ring.
Qed.

Lemma fetchExchangeRate_same st :
  fromCurrency st = toCurrency st ->
  fetchExchangeRate st = setExchangeRate (Num (Js.Fin 1)) st.
Proof.
  intros H. unfold fetchExchangeRate. by rewrite H, String.eqb_refl.
Qed.


(** ** The theorems at concrete inputs *)

(** The pairing reported for [doc_late_berth]. *)
Lemma eventPairs_fixed_durations_witness :
  exists p,
    In p (eventPairs (getSofResultSection (host := IsoDate.host) doc_late_berth)) /\
    id (startEvent p) = "vessel_arrived_anchorage" /\
    id (endEvent p) = "vessel_alongside_berthed" /\
    duration p = Js.Fin (5 # 2).
Proof.
  apply (proj1 (eventPairs_fixed_durations (host := IsoDate.host) doc_late_berth)).
  - left. reflexivity.
  - eexists. split; [left; reflexivity|reflexivity].
  - eexists. split; [right; left; reflexivity|reflexivity].
Defined.

(** C1, as stated, fails: with the anchoring at 06:30 and the berthing at
    10:00 the reported pairing has duration 2.5 hours, while 3.5 hours lie
    between the two timestamps. *)
Lemma pair_duration_not_elapsed :
  exists p,
    In p (eventPairs (getSofResultSection (host := IsoDate.host) doc_late_berth)) /\
    id (startEvent p) = "vessel_arrived_anchorage" /\
    id (endEvent p) = "vessel_alongside_berthed" /\
    Js.eqv (calculateDuration (host := IsoDate.host)
              (timestamp (startEvent p)) (timestamp (endEvent p)))
           (Js.Fin (7 # 2)) /\
    ~ Js.eqv (duration p)
        (calculateDuration (host := IsoDate.host)
           (timestamp (startEvent p)) (timestamp (endEvent p))).
Proof.
  eexists. split; [left; reflexivity|].
  vm_compute. repeat split; congruence.
Qed.



(** C3, as stated, fails: the anchoring of [doc_unordered] requires a
    location and has none, and no formatted event of the result section
    mentions the location: each carries the text "Clean". *)
Lemma missing_location_not_flagged :
  exists e,
    In e (events doc_unordered) /\
    requiresLocation e = Some true /\ location e = None /\
    Forall (fun f => fe_anomalies f = "Clean" /\
                     mentions "location" (fe_anomalies f) = false)
      (formattedEvents (getSofResultSection (host := IsoDate.host) doc_unordered)).
Proof.
  eexists. split; [right; left; reflexivity|].
  split; [reflexivity|]. split; [reflexivity|].
  vm_compute. repeat constructor.
Qed.

(** The sign law on the scenario of the specification: a Demurrage within
    a hundredth of 15000. *)
Lemma calculateDemurrage_sign_law_witness :
  valid_inputs st_scenario 10000 2 3.5 1 /\
  exists res q,
    Calculator.calculationResult (Calculator.calculateDemurrage st_scenario)
    = Some res /\
    Calculator.amount res = Js.Fin q /\
    Calculator.type res = Calculator.Demurrage /\
    (Qabs (q - 15000) <= 1 # 100)%Q /\ (0 < q)%Q.
Proof.
  assert (Hv : valid_inputs st_scenario 10000 2 3.5 1).
  { unfold valid_inputs. repeat split; by vm_compute. }
  split; [exact Hv|].
  destruct (calculateDemurrage_sign_law st_scenario 10000 2 3.5 1 Hv)
    as (res & q & Hres & Hq & _ & [_ Hclose] & Hpos & Hdem & _);
    [by vm_compute|].
  exists res, q. split; [exact Hres|]. split; [exact Hq|].
  split; [apply Hdem; by vm_compute|].
  split; [|apply Hpos; by vm_compute].
  assert (E : (q - 15000 == q - Qabs (3.5 - 2) * 10000)%Q)
    by (apply Qplus_comp; [reflexivity|by vm_compute]).
  rewrite E. eapply Qle_trans; [exact Hclose|]. by vm_compute.
Defined.

(** C4, as stated, fails: with a daily rate of 1, 2 days allowed and 2.001
    days used the inputs are valid and the used time exceeds the allowed
    time; the result is a Demurrage whose amount is 0, neither strictly
    positive nor the product 0.001. *)
Lemma demurrage_amount_rounds_to_zero :
  valid_inputs st_small_excess 1 2 2.001 1 /\ (2 < 2.001)%Q /\
  exists res q,
    Calculator.calculationResult (Calculator.calculateDemurrage st_small_excess)
    = Some res /\
    Calculator.type res = Calculator.Demurrage /\
    Calculator.amount res = Js.Fin q /\
    (q == 0)%Q /\ ~ (0 < q)%Q /\ ~ (q == (2.001 - 2) * 1)%Q.
Proof.
  split; [unfold valid_inputs; repeat split; by vm_compute|].
  split; [by vm_compute|].
  eexists _, _. split; [vm_compute; reflexivity|].
  split; [reflexivity|]. split; [reflexivity|].
  repeat split; by vm_compute.
Qed.

(** Adding an unknown and a known event to [doc_late_berth], held in a
    store with one array. *)
Lemma addEventToSof_outcome_witness :
  let h := [events doc_late_berth] in
  let o := Store.mkObject doc_late_berth 0 in
  (Store.addEventToSof o "vessel_sunk" "2025-08-06T11:00:00.000Z" None None h
   = (Throw (mkError "Event with ID vessel_sunk not found"), h) /\
   length (events (Store.view h o)) = 2%nat) /\
  exists o' h' r,
    Store.addEventToSof o "cargo_loading_started" "2025-08-06T11:00:00.000Z"
      None None h = (Return o', h') /\
    Store.view h' o = Store.view h o /\
    events (Store.view h' o') = events (Store.view h o) ++ [r] /\
    id r = "cargo_loading_started".
Proof.
  intros h o.
  assert (Hal : (Store.events_ref o < length h)%nat) by (vm_compute; lia).
  split.
  - split; [|reflexivity].
    apply (proj1 (addEventToSof_outcome h o "vessel_sunk"
                    "2025-08-06T11:00:00.000Z" None None Hal)).
    vm_compute. intros H. repeat (destruct H as [H|H]; [discriminate H|]). exact H.
  - destruct (proj2 (addEventToSof_outcome h o "cargo_loading_started"
                       "2025-08-06T11:00:00.000Z" None None Hal))
      as (o' & h' & r & H1 & _ & H3 & H4 & H5 & _).
    { apply in_map_iff.
      destruct (getSofEventById "cargo_loading_started") as [e|] eqn:E;
        [|vm_compute in E; discriminate E].
      apply getSofEventById_Some in E as [Hin Hid]. eauto. }
    exists o', h', r. repeat split; assumption.
Defined.

(** Indices 2 and -1 (outside) and 0 and 1 (inside) on [doc_late_berth];
    the update gives new remarks and an explicit absence of location. *)
Lemma index_operations_outcome_witness :
  let h := [events doc_late_berth] in
  let o := Store.mkObject doc_late_berth 0 in
  let updates := mkUpdates None (Some (Some "alongside")) (Some None) None None in
  (Store.removeEventFromSof o 2 h
   = (Throw (mkError "Event index 2 is out of bounds"), h) /\
   Store.updateEventInSof o (-1) updates h
   = (Throw (mkError "Event index -1 is out of bounds"), h)) /\
  (exists o' h',
     Store.removeEventFromSof o 0 h = (Return o', h') /\
     Store.view h' o = Store.view h o /\
     map name (events (Store.view h' o')) = ["Berthed"]) /\
  (exists o' h' e',
     Store.updateEventInSof o 1 updates h = (Return o', h') /\
     Store.view h' o = Store.view h o /\
     events (Store.view h' o') !! 1%nat = Some e' /\
     id e' = "vessel_alongside_berthed" /\
     timestamp e' = "2025-08-06T10:00:00.000Z" /\
     remarks e' = Some "alongside" /\ location e' = None).
Proof.
  intros h o updates.
  assert (Hal : (Store.events_ref o < length h)%nat) by (vm_compute; lia).
  split; [split|split].
  - destruct (proj1 (index_operations_outcome h o 2 updates Hal))
      as (err & H1 & _ & _ & _ & Hm).
    { unfold inside. vm_compute. intros [_ H]. discriminate H. }
    rewrite H1, Hm; [reflexivity|by vm_compute].
  - destruct (proj1 (index_operations_outcome h o (-1) updates Hal))
      as (err & _ & H2 & _ & _ & Hm).
    { unfold inside. vm_compute. intros [H _]. exact (H eq_refl). }
    rewrite H2, Hm; [reflexivity|by vm_compute].
  - destruct (proj2 (index_operations_outcome h o 0 updates Hal))
      as [(o' & h' & H1 & _ & H3 & H4) _].
    { unfold inside. vm_compute. split; [discriminate|reflexivity]. }
    exists o', h'. split; [exact H1|]. split; [exact H3|].
    rewrite H4. reflexivity.
  - destruct (proj2 (index_operations_outcome h o 1 updates Hal))
      as [_ (o' & h' & e & e' & H1 & _ & H3 & _ & _ & H6 & H7 & H8 & Ht & Hr & Hl & _)].
    { unfold inside. vm_compute. split; [discriminate|reflexivity]. }
    exists o', h', e'.
    vm_compute in H6. injection H6 as <-.
    split; [exact H1|]. split; [exact H3|]. split; [exact H7|].
    split; [destruct H8 as [-> _]; reflexivity|].
    split; [rewrite Ht; reflexivity|].
    split; [rewrite Hr; reflexivity|rewrite Hl; reflexivity].
Defined.

(** The chronological view of [doc_unordered]. *)
Lemma chronological_sorted_stable_witness :
  Forall (parses (host := IsoDate.host)) (events doc_unordered) /\
  ascending (host := IsoDate.host)
    (getSofEventsChronological (host := IsoDate.host) doc_unordered) /\
  map timestamp (getSofEventsChronological (host := IsoDate.host) doc_unordered)
  = ["2025-08-06T06:30:00.000Z"; "2025-08-06T10:00:00.000Z"].
Proof.
  assert (Hp : Forall (parses (host := IsoDate.host)) (events doc_unordered)).
  { repeat constructor; eexists; vm_compute; reflexivity. }
  split; [exact Hp|]. split; [|reflexivity].
  exact (proj1 (proj2 (chronological_sorted_stable (host := IsoDate.host)
                         doc_unordered) Hp)).
Defined.

(** C7, as stated, fails: in [doc_bad_timestamp] the first occurrence has a
    timestamp that is not a date and the second a valid one; the
    chronological view keeps the unparseable occurrence in front. *)
Lemma chronological_unparseable_first :
  map timestamp
    (getSofEventsChronological (host := IsoDate.host) doc_bad_timestamp)
  = ["not a date"; "2025-08-06T10:00:00.000Z"] /\
  ~ unparseable_last (host := IsoDate.host)
      (getSofEventsChronological (host := IsoDate.host) doc_bad_timestamp).
Proof.
  split; [reflexivity|]. intros H.
  assert (Hlt : (1 < 0)%nat); [|lia].
  eapply (H 0%nat 1%nat); [reflexivity|reflexivity|reflexivity|].
  eexists. vm_compute. reflexivity.
Qed.

(** The total time of [doc_catalog_scenario]. *)
Lemma calculateTotalTime_hours_witness :
  (2 <= length (events doc_catalog_scenario))%nat /\
  Forall (parses (host := IsoDate.host)) (events doc_catalog_scenario) /\
  exists t1 t2,
    earliest (host := IsoDate.host) t1 (events doc_catalog_scenario) /\
    latest (host := IsoDate.host) t2 (events doc_catalog_scenario) /\
    calculateTotalTime (host := IsoDate.host) doc_catalog_scenario
    = Some (Js.Fin (hours_between t1 t2)) /\
    (0 <= hours_between t1 t2)%Q.
Proof.
  assert (Hl : (2 <= length (events doc_catalog_scenario))%nat).
  { vm_compute. lia. }
  assert (Hp : Forall (parses (host := IsoDate.host))
                 (events doc_catalog_scenario)).
  { repeat constructor; eexists; vm_compute; reflexivity. }
  split; [exact Hl|]. split; [exact Hp|].
  exact (proj2 (calculateTotalTime_hours (host := IsoDate.host)
                  doc_catalog_scenario) Hl Hp).
Defined.

(** C8, as stated, fails: [doc_bad_timestamp] has two occurrences, only one
    of which has a parseable timestamp, and [calculateTotalTime] returns NaN
    for it, not [null]. *)
Lemma total_time_not_null_with_one_parseable :
  length (omap (time_of (host := IsoDate.host)) (events doc_bad_timestamp))
  = 1%nat /\
  calculateTotalTime (host := IsoDate.host) doc_bad_timestamp = Some Js.NaN /\
  calculateTotalTime (host := IsoDate.host) doc_bad_timestamp <> None.
Proof. vm_compute. repeat split. discriminate. Qed.

(** The export of [doc_unordered], written out: three line breaks for two
    occurrences. *)
Lemma exportSofToCsv_lines_witness :
  let q := String (ascii_of_nat 34) EmptyString in
  let nl := String (ascii_of_nat 10) EmptyString in
  exportSofToCsv doc_unordered
  = "Event Category,Event Name,Timestamp,Location,Remarks" +:+ nl
    +:+ q +:+ "Arrival & Port Entry" +:+ q +:+ "," +:+ q +:+ "Berthed" +:+ q
    +:+ "," +:+ q +:+ "2025-08-06T10:00:00.000Z" +:+ q +:+ ","
    +:+ q +:+ "Berth No" +:+ q +:+ "," +:+ q +:+ q +:+ nl
    +:+ q +:+ "Arrival & Port Entry" +:+ q +:+ "," +:+ q +:+ "Anchored" +:+ q
    +:+ "," +:+ q +:+ "2025-08-06T06:30:00.000Z" +:+ q +:+ ","
    +:+ q +:+ q +:+ "," +:+ q +:+ q +:+ nl /\
  count_char (ascii_of_nat 10) (exportSofToCsv doc_unordered) = 3%nat.
Proof.
  intros q nl.
  destruct (exportSofToCsv_lines doc_unordered) as [H1 H2]. split.
  - rewrite H1. reflexivity.
  - apply H2. repeat constructor.
Defined.

(** C9, as stated, fails: [doc_unordered] holds the berthing of 10:00 before
    the anchoring of 06:30, and its export lists them in that order, which is
    not the export of the chronological view. *)
Lemma export_not_chronological :
  map timestamp (events doc_unordered)
  = ["2025-08-06T10:00:00.000Z"; "2025-08-06T06:30:00.000Z"] /\
  exportSofToCsv doc_unordered = csv_of (events doc_unordered) /\
  exportSofToCsv doc_unordered
  <> csv_of (getSofEventsChronological (host := IsoDate.host) doc_unordered).
Proof.
  split; [reflexivity|]. split; [by vm_compute|].
  vm_compute. discriminate.
Qed.

(** Two occurrences at one instant: a total of 0 hours, shown as [null]. *)
Lemma zero_total_shown_as_null_witness :
  (exists v, calculateTotalTime (host := IsoDate.host) doc_same_instant = Some v
             /\ Js.eqv v (Js.Fin 0)) /\
  totalTimeInPort
    (operationalSummary (getSofResultSection (host := IsoDate.host) doc_same_instant))
  = None.
Proof.
  apply (zero_total_shown_as_null (host := IsoDate.host) doc_same_instant
           1754461800000%Z).
  - vm_compute. lia.
  - repeat constructor; eexists; vm_compute; reflexivity.
  - split.
    + eexists. split; [left; reflexivity|reflexivity].
    + intros e t' He Ht'. vm_compute in He.
      destruct He as [<-|[<-|[]]]; vm_compute in Ht'; injection Ht' as <-; lia.
  - split.
    + eexists. split; [left; reflexivity|reflexivity].
    + intros e t' He Ht'. vm_compute in He.
      destruct He as [<-|[<-|[]]]; vm_compute in Ht'; injection Ht' as <-; lia.
Defined.

(** C10, as stated, fails: in [doc_trailing_bad_timestamp] the timestamps
    that parse are all the same instant, which is then both the earliest and
    the latest parsed timestamp, and a third occurrence carries a timestamp
    that is not a date; [calculateTotalTime] returns NaN, not 0. *)
Lemma equal_extremes_total_not_zero :
  (2 <= length (events doc_trailing_bad_timestamp))%nat /\
  earliest (host := IsoDate.host) 1754461800000
    (events doc_trailing_bad_timestamp) /\
  latest (host := IsoDate.host) 1754461800000
    (events doc_trailing_bad_timestamp) /\
  calculateTotalTime (host := IsoDate.host) doc_trailing_bad_timestamp
  = Some Js.NaN /\
  ~ (exists v,
       calculateTotalTime (host := IsoDate.host) doc_trailing_bad_timestamp
       = Some v /\ Js.eqv v (Js.Fin 0)).
Proof.
  split; [vm_compute; lia|]. split; [|split; [|split]].
  - split.
    + eexists. split; [left; reflexivity|reflexivity].
    + intros e t' He Ht'. vm_compute in He.
      destruct He as [<-|[<-|[<-|[]]]]; vm_compute in Ht';
        first [discriminate Ht' | injection Ht' as <-; lia].
  - split.
    + eexists. split; [left; reflexivity|reflexivity].
    + intros e t' He Ht'. vm_compute in He.
      destruct He as [<-|[<-|[<-|[]]]]; vm_compute in Ht';
        first [discriminate Ht' | injection Ht' as <-; lia].
  - reflexivity.
  - intros (v & Hv & He). vm_compute in Hv. injection Hv as <-. exact He.
Qed.

(** * Further properties *)

(** ** The catalog *)

Lemma catalog_ids_NoDup : NoDup (map ev_id sofEvents).
Proof. apply (bool_decide_unpack _). by vm_compute. Qed.

Lemma find_unique_key {A} (key : A -> string) (l : list A) (e : A) :
  NoDup (map key l) -> In e l ->
  List.find (fun x => String.eqb (key x) (key e)) l = Some e.
Proof.
  induction l as [|x r IH]; intros Hnd Hin; [done|].
  apply NoDup_cons in Hnd as [Hx Hr]. simpl.
  destruct Hin as [->|Hin]; [by rewrite String.eqb_refl|].
  destruct (String.eqb_spec (key x) (key e)) as [Heq|_]; [|by apply IH].
  destruct Hx. rewrite Heq. apply list_elem_of_In, in_map_iff. eauto.
Qed.

Lemma category_eqb_eq a b : category_eqb a b = true <-> a = b.
Proof.
  split; [|intros ->; apply String.eqb_refl].
  by destruct a, b.
Qed.

(** X1: looking up the id of a catalog entry gives back that very entry:
    the ids of the catalog are pairwise distinct. *)
Theorem getSofEventById_of_catalog (event : SofEvent) :
  In event sofEvents -> getSofEventById (ev_id event) = Some event.
Proof. apply find_unique_key, catalog_ids_NoDup. Qed.

(** [getSofEventById_of_catalog] on the second entry of the catalog. *)
Lemma getSofEventById_of_catalog_witness :
  exists event,
    sofEvents !! 1%nat = Some event /\
    getSofEventById (ev_id event) = Some event.
Proof.
  eexists. split; [reflexivity|].
  apply getSofEventById_of_catalog. right. left. reflexivity.
Defined.

Lemma concat_filter_cons {A C} (cat : A -> C) (eqb : C -> C -> bool)
    (values : list C) (x : A) (l : list A) :
  (forall a b, eqb a b = true <-> a = b) ->
  NoDup values -> In (cat x) values ->
  Permutation
    (concat (map (fun c => List.filter (fun e => eqb (cat e) c) (x :: l)) values))
    (x :: concat (map (fun c => List.filter (fun e => eqb (cat e) c) l) values)).
Proof.
  intros Heqb. induction values as [|c r IH]; intros Hnd Hin; [done|].
  apply NoDup_cons in Hnd as [Hc Hr]. cbn [map concat List.filter].
  destruct (eqb (cat x) c) eqn:E.
  - apply Heqb in E. subst c. cbn [app]. constructor. apply Permutation_app_head.
    clear IH Hin Hr. induction r as [|c r IH]; [done|].
    cbn [map concat List.filter].
    destruct (eqb (cat x) c) eqn:E.
    + apply Heqb in E. subst c. destruct Hc. left.
    + apply Permutation_app_head, IH. intros Hin. apply Hc. by right.
  - destruct Hin as [Hin|Hin].
    { assert (eqb (cat x) c = true) by by apply Heqb. congruence. }
    rewrite IH by done. symmetry. apply Permutation_middle.
Qed.

(** X2: [getSofEventsByCategory] lists exactly the catalog entries of the
    category, and the lists of all the categories together are a
    rearrangement of the catalog: every entry is listed under one category
    and only one. *)
Theorem getSofEventsByCategory_partition :
  (forall c event,
     In event (getSofEventsByCategory c) <->
     In event sofEvents /\ ev_category event = c) /\
  Permutation
    (concat (map getSofEventsByCategory getAllSofEventCategories))
    getAllSofEvents.
Proof.
  split.
  - intros c event. unfold getSofEventsByCategory.
    by rewrite filter_In, category_eqb_eq.
  - unfold getSofEventsByCategory, getAllSofEvents, getAllSofEventCategories.
    generalize sofEvents as l. induction l as [|x l IH].
    + by vm_compute.
    + rewrite (concat_filter_cons ev_category category_eqb).
      * by constructor.
      * apply category_eqb_eq.
      * unfold SofEventCategory_values.
        repeat (apply NoDup_cons_2;
                [rewrite ?elem_of_cons, elem_of_nil; intuition discriminate|]).
        apply NoDup_nil_2.
      * destruct (ev_category x); vm_compute; tauto.
Qed.

(** ** Documents *)

Lemma conforms_mkEventRecord d ev ts rem loc :
  In ev sofEvents -> conforms (mkEventRecord d ev ts rem loc).
Proof.
  intros Hin. exists ev. repeat split.
  apply (find_unique_key ev_id); [apply catalog_ids_NoDup|done].
Qed.

Lemma conforms_spread_updates e u : conforms e -> conforms (spread_updates e u).
Proof. intros (ev & H). by exists ev. Qed.

Lemma Forall_Array_splice {A} (P : A -> Prop) (a : list A) (start n : Z) :
  Forall P a -> Forall P (Js.Array_splice a start n).
Proof.
  intros H. unfold Js.Array_splice.
  apply Forall_app. split; [by apply Forall_take|by apply Forall_drop].
Qed.

(** X3: conformance to the catalog is an invariant of documents: a new
    document has it, and [addEventToSof], [removeEventFromSof] and
    [updateEventInSof] return a document that has it whenever the document
    they are given has it. *)
Theorem well_formed_invariant :
  (forall uid vessel port, well_formed (createSofDocument uid vessel port)) /\
  (forall d, well_formed d ->
     (forall eventId ts rem loc d',
        addEventToSof d eventId ts rem loc = Return d' -> well_formed d') /\
     (forall i d', removeEventFromSof d i = Return d' -> well_formed d') /\
     (forall i u d', updateEventInSof d i u = Return d' -> well_formed d')).
Proof.
  split; [intros; constructor|]. intros d Hd. repeat split.
  - intros eventId ts rem loc d'. unfold addEventToSof.
    destruct (getSofEventById eventId) as [ev|] eqn:E; [|done].
    intros [= <-]. unfold well_formed; simpl.
    apply Forall_app. split; [done|]. constructor; [|constructor].
    apply conforms_mkEventRecord. by apply getSofEventById_Some in E as [].
  - intros i d'. unfold removeEventFromSof.
    destruct (out_of_bounds d i); [done|]. intros [= <-].
    by apply Forall_Array_splice.
  - intros i u d'. unfold updateEventInSof.
    destruct (out_of_bounds d i); [done|]. intros [= <-].
    unfold well_formed; simpl. apply Forall_alter; [done|].
    intros e _ He. by apply conforms_spread_updates.
Qed.

(** The invariant on [doc_late_berth] after an update of its second
    occurrence. *)
Lemma well_formed_invariant_witness :
  well_formed doc_late_berth /\
  exists d',
    updateEventInSof doc_late_berth 1
      (mkUpdates None (Some (Some "alongside")) None None None) = Return d' /\
    well_formed d'.
Proof.
  assert (H0 : well_formed empty_doc) by apply (proj1 well_formed_invariant).
  assert (H1 : well_formed doc_late_berth).
  { unfold doc_late_berth, add_all. cbn [fold_left].
    destruct (addEventToSof empty_doc _ _ _ _) as [d1|] eqn:E1;
      [|vm_compute in E1; discriminate E1].
    pose proof (proj1 (proj2 well_formed_invariant _ H0) _ _ _ _ _ E1) as Hd1.
    destruct (addEventToSof d1 _ _ _ _) as [d2|] eqn:E2.
    - exact (proj1 (proj2 well_formed_invariant _ Hd1) _ _ _ _ _ E2).
    - exact Hd1. }
  split; [exact H1|]. eexists. split; [reflexivity|].
  apply (proj2 (proj2 (proj2 well_formed_invariant _ H1)) 1%Z
           (mkUpdates None (Some (Some "alongside")) None None None)).
  reflexivity.
Defined.

Lemma with_events_same d : with_events d (events d) = d.
Proof. by destruct d. Qed.

(** X4: removing the last occurrence of the document that [addEventToSof]
    returned gives back the document the event was added to. *)
Theorem remove_after_add (d d' : SofDocument) (eventId ts : string)
    (rem loc : option string) :
  addEventToSof d eventId ts rem loc = Return d' ->
  removeEventFromSof d' (Z.of_nat (length (events d))) = Return d.
Proof.
  unfold addEventToSof. destruct (getSofEventById eventId) as [ev|]; [|done].
  intros [= <-]. unfold removeEventFromSof, out_of_bounds.
  cbn [events with_events]. rewrite length_app. cbn [length].
  destruct (Z.ltb_spec (Z.of_nat (length (events d))) 0) as [|_]; [lia|].
  destruct (Z.geb_spec (Z.of_nat (length (events d)))
              (Z.of_nat (length (events d) + 1))) as [|_]; [lia|].
  cbn [orb]. f_equal.
  rewrite Array_splice_one by (unfold inside; rewrite length_app; simpl; lia).
  rewrite Nat2Z.id, take_app_length, drop_ge by (rewrite length_app; simpl; lia).
  rewrite app_nil_r. exact (with_events_same d).
Qed.

(** [remove_after_add] on [doc_late_berth]. *)
Lemma remove_after_add_witness :
  exists d',
    addEventToSof doc_late_berth "cargo_loading_started"
      "2025-08-06T11:00:00.000Z" None None = Return d' /\
    removeEventFromSof d' 2 = Return doc_late_berth.
Proof.
  eexists. split; [reflexivity|].
  exact (remove_after_add doc_late_berth _ "cargo_loading_started"
           "2025-08-06T11:00:00.000Z" None None eq_refl).
Defined.

Lemma spread_no_updates e : spread_updates e no_updates = e.
Proof. by destruct e. Qed.

Lemma spread_merge e u1 u2 :
  spread_updates (spread_updates e u1) u2 = spread_updates e (merge_updates u1 u2).
Proof.
  destruct u1 as [[?|] [?|] [?|] [?|] [?|]], u2 as [[?|] [?|] [?|] [?|] [?|]];
    reflexivity.
Qed.

(** X5: for an index inside the document, [updateEventInSof] with the empty
    updates object returns the document unchanged, and two successive
    updates of the same occurrence amount to one update with the two
    objects merged, the later one taking precedence. *)
Theorem updateEventInSof_compose (d : SofDocument) (i : Z)
    (u1 u2 : SofEventUpdates) :
  inside i (events d) ->
  updateEventInSof d i no_updates = Return d /\
  exists d1,
    updateEventInSof d i u1 = Return d1 /\
    updateEventInSof d1 i u2 = updateEventInSof d i (merge_updates u1 u2).
Proof.
  intros Hin. pose proof (proj2 (out_of_bounds_spec d i) Hin) as Hb.
  unfold updateEventInSof. rewrite Hb. split.
  - f_equal. cbn zeta. rewrite list_alter_id by apply spread_no_updates.
    apply with_events_same.
  - eexists. split; [reflexivity|].
    assert (Hb1 : out_of_bounds
              (with_events d (alter (fun old => spread_updates old u1)
                                (Z.to_nat i) (events d))) i = false).
    { apply out_of_bounds_spec. unfold inside.
      cbn [events with_events]. by rewrite length_alter. }
    rewrite Hb1. cbn [events with_events]. do 2 f_equal.
    rewrite list_alter_alter_eq. apply list_alter_ext; [|done].
    intros e _. apply spread_merge.
Qed.

(** [updateEventInSof_compose] on the second occurrence of [doc_late_berth]. *)
Lemma updateEventInSof_compose_witness :
  let u1 := mkUpdates None (Some (Some "alongside")) None None None in
  let u2 := mkUpdates None (Some None) (Some (Some "Berth 4")) None None in
  inside 1 (events doc_late_berth) /\
  updateEventInSof doc_late_berth 1 no_updates = Return doc_late_berth /\
  exists d1,
    updateEventInSof doc_late_berth 1 u1 = Return d1 /\
    updateEventInSof d1 1 u2
    = updateEventInSof doc_late_berth 1 (merge_updates u1 u2).
Proof.
  intros u1 u2.
  assert (Hin : inside 1 (events doc_late_berth)).
  { unfold inside. vm_compute. split; [discriminate|reflexivity]. }
  split; [exact Hin|].
  exact (updateEventInSof_compose doc_late_berth 1 u1 u2 Hin).
Defined.

(** X6: none of the three operations writes to an array that existed
    before the call: the store afterwards is the store before, followed by
    at most one new array. *)
Theorem store_only_grows (h : Store.heap) (o : Store.DocumentObject) :
  (forall eventId ts rem loc,
     exists ext, (Store.addEventToSof o eventId ts rem loc h).2 = h ++ ext
                 /\ (length ext <= 1)%nat) /\
  (forall i,
     exists ext, (Store.removeEventFromSof o i h).2 = h ++ ext
                 /\ (length ext <= 1)%nat) /\
  (forall i u,
     exists ext, (Store.updateEventInSof o i u h).2 = h ++ ext
                 /\ (length ext <= 1)%nat).
Proof.
  repeat split.
  - intros eventId ts rem loc. unfold Store.addEventToSof.
    destruct (getSofEventById eventId).
    + eexists [_]. split; [reflexivity|simpl; lia].
    + exists []. split; [by rewrite app_nil_r|simpl; lia].
  - intros i. rewrite Store_removeEventFromSof_eq.
    destruct (out_of_bounds _ _).
    + exists []. split; [by rewrite app_nil_r|simpl; lia].
    + eexists [_]. split; [reflexivity|simpl; lia].
  - intros i u. rewrite Store_updateEventInSof_eq.
    destruct (out_of_bounds _ _).
    + exists []. split; [by rewrite app_nil_r|simpl; lia].
    + eexists [_]. split; [reflexivity|simpl; lia].
Qed.

(** ** The summary by category *)

Lemma category_value_inj a b : category_value a = category_value b -> a = b.
Proof. intros H. apply category_eqb_eq. unfold category_eqb. by rewrite H, String.eqb_refl. Qed.

Lemma count_category_cons c e l :
  count_category c (e :: l)
  = ((if category_eqb (category e) c then 1 else 0) + count_category c l)%nat.
Proof. unfold count_category. simpl. by destruct (category_eqb _ _). Qed.

Lemma summary_fold_lookup (l : list SofEventRecord) (m : gmap string nat) c n :
  m !! category_value c = Some n ->
  fold_left (fun s event => alter S (category_value (category event)) s) l m
    !! category_value c
  = Some (n + count_category c l)%nat.
Proof.
  revert m n. induction l as [|e l IH]; intros m n Hm.
  - simpl. rewrite Hm. f_equal. unfold count_category. simpl. lia.
  - cbn [fold_left]. rewrite count_category_cons.
    destruct (category_eqb (category e) c) eqn:E.
    + apply category_eqb_eq in E. subst c.
      rewrite (IH _ (S n)) by (by rewrite lookup_alter_eq, Hm). f_equal. lia.
    + rewrite (IH _ n); [done|]. rewrite lookup_alter_ne; [done|].
      intros H. apply category_value_inj, category_eqb_eq in H. congruence.
Qed.

Lemma summary_fold_absent (l : list SofEventRecord) (m : gmap string nat) k :
  m !! k = None ->
  fold_left (fun s event => alter S (category_value (category event)) s) l m !! k
  = None.
Proof.
  revert m. induction l as [|e l IH]; intros m Hm; [done|].
  cbn [fold_left]. apply IH.
  destruct (decide (category_value (category e) = k)) as [<-|Hne].
  - by rewrite lookup_alter_eq, Hm.
  - by rewrite lookup_alter_ne.
Qed.

(** X7: the summary has one entry for each of the seven categories and no
    other; the entry of a category is the number of occurrences of that
    category in the document, 0 included, and the seven entries add up to
    the number of occurrences. *)
Theorem getSofEventsSummary_counts (d : SofDocument) :
  (forall c, getSofEventsSummary d !! category_value c
             = Some (count_category c (events d))) /\
  (forall k, (forall c, k <> category_value c) ->
             getSofEventsSummary d !! k = None) /\
  sum_list (map (fun c => count_category c (events d)) getAllSofEventCategories)
  = length (events d).
Proof.
  unfold getSofEventsSummary. repeat split.
  - intros c. rewrite (summary_fold_lookup _ _ c 0); [done|].
    by destruct c.
  - intros k Hk. apply summary_fold_absent. cbn [fold_left SofEventCategory_values].
    rewrite !lookup_insert_ne, lookup_empty; try done.
  - induction (events d) as [|e l IH]; [done|].
    cbn [map sum_list getAllSofEventCategories SofEventCategory_values] in *.
    rewrite !count_category_cons.
    destruct (category e);
      repeat match goal with
        | |- context [category_eqb ?a ?b] =>
            let v := eval vm_compute in (category_eqb a b) in
            change (category_eqb a b) with v
        end; unfold Datatypes.id in *; cbn [length]; lia.
Qed.

(** ** The chronological view, durations and totals *)

Section ChronologicalMore.

Context `{host : DateHost}.

(** X8: sorting is idempotent: when every timestamp parses, the
    chronological view of a document whose occurrences already are a
    chronological view is that same list. *)
Theorem chronological_idempotent (d : SofDocument) :
  Forall parses (events d) ->
  getSofEventsChronological (with_events d (getSofEventsChronological d))
  = getSofEventsChronological d.
Proof.
  intros Hp.
  assert (Hp' : Forall parses (getSofEventsChronological d))
    by by apply Array_sort_parses.
  apply stable_ascending_unique.
  - apply Array_sort_Permutation.
  - by apply Array_sort_ascending.
  - by apply Array_sort_ascending.
  - apply Array_sort_same_order.
Qed.

(** The total time as the hours from the earliest to the latest instant,
    in a form for reuse. *)
Lemma total_time_extremes (d : SofDocument) :
  (2 <= length (events d))%nat -> Forall parses (events d) ->
  exists t1 t2,
    earliest t1 (events d) /\ latest t2 (events d) /\
    calculateTotalTime d = Some (Js.Fin (hours_between t1 t2)).
Proof.
  intros Hge Hp.
  destruct (chronological_ends d Hge) as (f & z & Hf & Hz).
  pose proof (Array_sort_ascending _ Hp) as Hs.
  pose proof (Array_sort_parses _ Hp) as Hps.
  fold (getSofEventsChronological d) in Hs, Hps.
  assert (Hfin : f ∈ getSofEventsChronological d) by by apply head_Some_elem_of.
  assert (Hzin : z ∈ getSofEventsChronological d) by by apply last_Some_elem_of.
  destruct (proj1 (Forall_forall _ _) Hps f Hfin) as [tf Htf].
  destruct (proj1 (Forall_forall _ _) Hps z Hzin) as [tz Htz].
  exists tf, tz. split; [|split].
  - split.
    + exists f. split; [|done].
      apply (proj1 (Array_sort_In by_timestamp _ _)). by apply list_elem_of_In.
    + intros e t' He Ht'. apply (proj2 (Array_sort_In by_timestamp _ _)) in He.
      destruct (ascending_head _ f e Hs Hf He) as [->|(ta & tb & Ha & Hb & Hab)].
      * rewrite Htf in Ht'. injection Ht' as <-. lia.
      * rewrite Htf in Ha. rewrite Ht' in Hb. simplify_eq. lia.
  - split.
    + exists z. split; [|done].
      apply (proj1 (Array_sort_In by_timestamp _ _)). by apply list_elem_of_In.
    + intros e t' He Ht'. apply (proj2 (Array_sort_In by_timestamp _ _)) in He.
      destruct (ascending_last _ z e Hs Hz He) as [->|(ta & tb & Ha & Hb & Hab)].
      * rewrite Htz in Ht'. injection Ht' as <-. lia.
      * rewrite Htz in Hb. rewrite Ht' in Ha. simplify_eq. lia.
  - rewrite (calculateTotalTime_ends d f z Hge Hf Hz).
    by rewrite (getTime_parsed _ _ Htf), (getTime_parsed _ _ Htz).
Qed.

Lemma earliest_unique t t' l l' :
  Permutation l l' -> earliest t l -> earliest t' l' -> t = t'.
Proof.
  intros Hp [(e & He & Ht) Hmin] [(e' & He' & Ht') Hmin'].
  apply (Permutation_in _ Hp) in He.
  apply (Permutation_in _ (Permutation_sym Hp)) in He'.
  pose proof (Hmin _ _ He' Ht'). pose proof (Hmin' _ _ He Ht). lia.
Qed.

Lemma latest_unique t t' l l' :
  Permutation l l' -> latest t l -> latest t' l' -> t = t'.
Proof.
  intros Hp [(e & He & Ht) Hmax] [(e' & He' & Ht') Hmax'].
  apply (Permutation_in _ Hp) in He.
  apply (Permutation_in _ (Permutation_sym Hp)) in He'.
  pose proof (Hmax _ _ He' Ht'). pose proof (Hmax' _ _ He Ht). lia.
Qed.

(** X9: the total time does not depend on the order in which the
    occurrences were entered: two documents holding the same occurrences,
    all with parseable timestamps, have the same total time. *)
Theorem calculateTotalTime_order_independent (d1 d2 : SofDocument) :
  Permutation (events d1) (events d2) ->
  Forall parses (events d1) ->
  calculateTotalTime d1 = calculateTotalTime d2.
Proof.
  intros Hperm Hp1.
  assert (Hp2 : Forall parses (events d2)) by by rewrite <- Hperm.
  pose proof (Permutation_length Hperm) as Hlen.
  destruct (Nat.lt_ge_cases (length (events d1)) 2) as [Hlt|Hge].
  - unfold calculateTotalTime. rewrite <- Hlen.
    by destruct (Nat.ltb_spec (length (events d1)) 2) as [|]; [|lia].
  - destruct (total_time_extremes d1 Hge Hp1) as (a1 & b1 & Ha1 & Hb1 & ->).
    destruct (total_time_extremes d2) as (a2 & b2 & Ha2 & Hb2 & ->);
      [lia|done|].
    by rewrite (earliest_unique _ _ _ _ Hperm Ha1 Ha2),
               (latest_unique _ _ _ _ Hperm Hb1 Hb2).
Qed.

(** X10: with two or more occurrences whose timestamps all parse, the total
    time of the document is what [calculateDuration] gives from the
    timestamp of any occurrence at the earliest instant to the timestamp of
    any occurrence at the latest instant. *)
Theorem total_time_is_duration_between_extremes (d : SofDocument)
    (f z : SofEventRecord) (t1 t2 : Z) :
  (2 <= length (events d))%nat -> Forall parses (events d) ->
  earliest t1 (events d) -> latest t2 (events d) ->
  time_of f = Some t1 -> time_of z = Some t2 ->
  calculateTotalTime d = Some (calculateDuration (timestamp f) (timestamp z)).
Proof.
  intros Hge Hp He Hl Hf Hz.
  destruct (total_time_extremes d Hge Hp) as (a & b & Ha & Hb & ->).
  rewrite (earliest_unique _ _ _ _ (Permutation_refl _) Ha He),
          (latest_unique _ _ _ _ (Permutation_refl _) Hb Hl).
  unfold calculateDuration.
  by rewrite (getTime_parsed _ _ Hf), (getTime_parsed _ _ Hz).
Qed.

(** The element that [find_by_id] picks in the chronological view is an
    earliest occurrence of its id. *)
Lemma find_by_id_earliest (d : SofDocument) (key : string)
    (k e : SofEventRecord) :
  Forall parses (events d) ->
  find_by_id key (getSofEventsChronological d) = Some k ->
  In e (events d) -> id e = key ->
  In k (events d) /\ id k = key /\ not_later k e.
Proof.
  intros Hp Hk He Hid. subst key.
  pose proof (Array_sort_ascending _ Hp) as Hs.
  pose proof (Array_sort_parses _ Hp) as Hps.
  fold (getSofEventsChronological d) in Hs, Hps.
  apply (proj2 (Array_sort_In by_timestamp _ _)) in He.
  fold (getSofEventsChronological d) in He.
  destruct (find_by_id_Some _ _ _ Hk) as [Hkin Hkid].
  split; [by apply (proj1 (Array_sort_In by_timestamp _ _))|]. split; [done|].
  clear Hkin. revert Hk He Hs Hps. unfold find_by_id, Js.Array_find.
  induction (getSofEventsChronological d) as [|x l IH]; [done|].
  intros Hk He Hs Hps. simpl in Hk.
  apply Forall_cons in Hps as [[tx Hx] Hps].
  inversion Hs as [|? ? Hs' Hx']; subst.
  destruct (String.eqb_spec (id x) (id e)) as [Heq|Hne].
  - injection Hk as <-. destruct He as [<-|He].
    + exists tx, tx. by repeat split.
    + by apply (proj1 (Forall_forall _ _) Hx'), list_elem_of_In.
  - destruct He as [<-|He]; [done|]. by apply IH.
Qed.

End ChronologicalMore.

(** [chronological_idempotent] on [doc_unordered]. *)
Lemma chronological_idempotent_witness :
  getSofEventsChronological (host := IsoDate.host)
    (with_events doc_unordered
       (getSofEventsChronological (host := IsoDate.host) doc_unordered))
  = getSofEventsChronological (host := IsoDate.host) doc_unordered.
Proof.
  apply (chronological_idempotent (host := IsoDate.host)).
  repeat constructor; eexists; vm_compute; reflexivity.
Defined.

(** [calculateTotalTime_order_independent] on [doc_unordered] and the same
    occurrences in chronological order. *)
Lemma calculateTotalTime_order_independent_witness :
  calculateTotalTime (host := IsoDate.host) doc_unordered
  = calculateTotalTime (host := IsoDate.host)
      (with_events doc_unordered (rev (events doc_unordered))).
Proof.
  apply (calculateTotalTime_order_independent (host := IsoDate.host)).
  - apply Permutation_rev.
  - repeat constructor; eexists; vm_compute; reflexivity.
Defined.

(** [total_time_is_duration_between_extremes] on [doc_unordered]: the total
    time is the duration from the anchoring, entered second, to the
    berthing, entered first: three and a half hours. *)
Lemma total_time_is_duration_between_extremes_witness :
  calculateTotalTime (host := IsoDate.host) doc_unordered
  = Some (calculateDuration (host := IsoDate.host)
            "2025-08-06T06:30:00.000Z" "2025-08-06T10:00:00.000Z") /\
  Js.eqv
    (calculateDuration (host := IsoDate.host)
       "2025-08-06T06:30:00.000Z" "2025-08-06T10:00:00.000Z")
    (Js.Fin (7 # 2)).
Proof.
  split; [|by vm_compute].
  destruct (events doc_unordered) as [|z [|f r]] eqn:E;
    [discriminate E|discriminate E|].
  injection E as Ez Ef Er.
  replace "2025-08-06T06:30:00.000Z" with (timestamp f) by by rewrite <- Ef.
  replace "2025-08-06T10:00:00.000Z" with (timestamp z) by by rewrite <- Ez.
  assert (Hev : events doc_unordered = [z; f]) by (rewrite <- Ez, <- Ef; reflexivity).
  apply (total_time_is_duration_between_extremes (host := IsoDate.host)
           doc_unordered f z 1754461800000 1754474400000).
  - vm_compute. lia.
  - repeat constructor; eexists; vm_compute; reflexivity.
  - split.
    + exists f. split; [rewrite Hev; right; left; reflexivity|by rewrite <- Ef].
    + intros e t' He Ht'. vm_compute in He.
      destruct He as [<-|[<-|[]]]; vm_compute in Ht'; injection Ht' as <-; lia.
  - split.
    + exists z. split; [rewrite Hev; left; reflexivity|by rewrite <- Ez].
    + intros e t' He Ht'. vm_compute in He.
      destruct He as [<-|[<-|[]]]; vm_compute in Ht'; injection Ht' as <-; lia.
  - by rewrite <- Ef.
  - by rewrite <- Ez.
Defined.

(** ** More on the export and the result section *)

(** X12: the export of the document that [addEventToSof] returns is the
    export of the document it was given followed by the line of the new
    occurrence. *)
Theorem export_after_add (d d' : SofDocument) (eventId ts : string)
    (rem loc : option string) :
  addEventToSof d eventId ts rem loc = Return d' ->
  exists r,
    events d' = events d ++ [r] /\
    exportSofToCsv d' = exportSofToCsv d +:+ csv_line r.
Proof.
  unfold addEventToSof. destruct (getSofEventById eventId) as [ev|]; [|done].
  intros [= <-]. eexists. split; [reflexivity|].
  unfold exportSofToCsv. cbn [events with_events].
  rewrite fold_left_app. cbn [fold_left]. by rewrite csv_row_line.
Qed.

(** [export_after_add] on [doc_late_berth]. *)
Lemma export_after_add_witness :
  exists d' r,
    addEventToSof doc_late_berth "cargo_loading_started"
      "2025-08-06T11:00:00.000Z" None None = Return d' /\
    events d' = events doc_late_berth ++ [r] /\
    exportSofToCsv d' = exportSofToCsv doc_late_berth +:+ csv_line r.
Proof.
  destruct (export_after_add doc_late_berth _ "cargo_loading_started"
              "2025-08-06T11:00:00.000Z" None None eq_refl) as (r & H1 & H2).
  eexists _, r. split; [reflexivity|]. by split.
Defined.

Section ResultMore.

Context `{host : DateHost}.

Lemma find_by_id_None key d :
  find_by_id key (getSofEventsChronological d) = None <-> ~ occurs key (events d).
Proof.
  split.
  - intros Hn Ho. apply occurs_chronological in Ho.
    apply find_by_id_occurs in Ho as [e He]. congruence.
  - intros Hn. destruct (find_by_id key _) as [e|] eqn:E; [|done].
    destruct Hn. apply find_by_id_Some in E as [Hin Hid].
    exists e. split; [|done]. by apply (proj1 (Array_sort_In by_timestamp _ _)).
Qed.

Lemma find_by_id_Some_occurs key d e :
  find_by_id key (getSofEventsChronological d) = Some e -> occurs key (events d).
Proof.
  intros E. apply find_by_id_Some in E as [Hin Hid].
  exists e. split; [|done]. by apply (proj1 (Array_sort_In by_timestamp _ _)).
Qed.

Lemma find_by_id_is_Some key d :
  occurs key (events d) ->
  exists e, find_by_id key (getSofEventsChronological d) = Some e.
Proof. intros Ho. by apply find_by_id_occurs, occurs_chronological. Qed.

(** X13: the waiting time of the operational summary is 2.5 when an
    anchoring and a berthing both occur in the timeline and 0 otherwise, the
    loading time is 11.5 when a start and a completion of loading both occur
    and 0 otherwise, and the number of events is the number of occurrences:
    none of the three depends on a timestamp. *)
Theorem summary_times (d : SofDocument) :
  let s := operationalSummary (getSofResultSection d) in
  (occurs "vessel_arrived_anchorage" (events d) /\
   occurs "vessel_alongside_berthed" (events d) ->
   waitingTime s = Js.Fin (5 # 2)) /\
  (~ (occurs "vessel_arrived_anchorage" (events d) /\
      occurs "vessel_alongside_berthed" (events d)) ->
   waitingTime s = Js.Fin 0) /\
  (occurs "cargo_loading_started" (events d) /\
   occurs "cargo_loading_completed" (events d) ->
   loadingTime s = Js.Fin (23 # 2)) /\
  (~ (occurs "cargo_loading_started" (events d) /\
      occurs "cargo_loading_completed" (events d)) ->
   loadingTime s = Js.Fin 0) /\
  totalEvents s = length (events d).
Proof.
  cbn [getSofResultSection operationalSummary waitingTime loadingTime totalEvents].
  unfold set_if_both.
  split; [|split; [|split; [|split]]].
  - intros [Ha Hb].
    destruct (find_by_id_is_Some _ _ Ha) as [a ->].
    by destruct (find_by_id_is_Some _ _ Hb) as [b ->].
  - intros Hn.
    destruct (find_by_id "vessel_arrived_anchorage" _) eqn:Ea; [|done].
    destruct (find_by_id "vessel_alongside_berthed" _) eqn:Eb; [|done].
    destruct Hn. eauto using find_by_id_Some_occurs.
  - intros [Ha Hb].
    destruct (find_by_id_is_Some _ _ Ha) as [a ->].
    by destruct (find_by_id_is_Some _ _ Hb) as [b ->].
  - intros Hn.
    destruct (find_by_id "cargo_loading_started" _) eqn:Ea; [|done].
    destruct (find_by_id "cargo_loading_completed" _) eqn:Eb; [|done].
    destruct Hn. eauto using find_by_id_Some_occurs.
  - apply Array_sort_length.
Qed.

End ResultMore.

Lemma milestone_pairs_functional s t t' dur dur' :
  In (s, t, dur) milestone_pairs -> In (s, t', dur') milestone_pairs ->
  t = t' /\ dur = dur'.
Proof.
  unfold milestone_pairs. cbn [In].
  intros [H|[H|[H|[H|[]]]]] [H'|[H'|[H'|[H'|[]]]]];
    injection H as <- <- <-;
    first [discriminate H' | by injection H' as <- <-].
Qed.

Section FormattedMore.

Context `{host : DateHost}.

(** The pair that [format_event] finds for an event, in terms of the
    milestone table. *)
Lemma format_event_pair d e :
  let pairs := eventPairs (getSofResultSection d) in
  let chron := getSofEventsChronological d in
  In e chron ->
  (forall t dur b,
     In (id e, t, dur) milestone_pairs -> find_by_id t chron = Some b ->
     fe_duration (format_event pairs e) = Some dur /\
     fe_endTime (format_event pairs e) = timestamp b) /\
  ((forall t dur, In (id e, t, dur) milestone_pairs -> ~ occurs t (events d)) ->
   fe_duration (format_event pairs e) = None /\
   fe_endTime (format_event pairs e) = EmptyString).
Proof.
  intros pairs chron He. unfold format_event. cbn [fe_duration fe_endTime].
  destruct (Js.Array_find _ pairs) as [p|] eqn:E.
  - apply find_some in E as [Hp Hid]. apply String.eqb_eq in Hid.
    apply In_eventPairs in Hp as (s & t & dur & Hin & Hs & Ht & Hd).
    destruct (find_by_id_Some _ _ _ Hs) as [_ Hs'].
    assert (Hse : s = id e) by congruence. rewrite Hse in Hin. clear Hse. split.
    + intros t' dur' b Hin' Hb.
      destruct (milestone_pairs_functional _ _ _ _ _ Hin Hin') as [<- <-].
      fold chron in Ht. rewrite Hb in Ht. injection Ht as <-. by rewrite Hd.
    + intros Hno. destruct (Hno _ _ Hin).
      by apply (find_by_id_Some_occurs _ _ _ Ht).
  - split; [|done]. intros t dur b Hin Hb. exfalso.
    assert (Ho : occurs (id e) (events d)).
    { exists e. split; [|done]. by apply (proj1 (Array_sort_In by_timestamp _ _)). }
    destruct (find_by_id_is_Some _ _ Ho) as [a Ha]. fold chron in Ha.
    assert (Hp : In (mkPair a b dur) pairs).
    { apply In_eventPairs. by exists (id e), t, dur. }
    apply (find_none _ _ E) in Hp. cbn [startEvent] in Hp.
    apply find_by_id_Some in Ha as [_ Ha]. by rewrite Ha, String.eqb_refl in Hp.
Qed.

(** X14: in the formatted events, every occurrence whose id starts a
    milestone pair is shown with the fixed duration of that pair and with the
    timestamp of the first chronological occurrence of the pair's end event,
    provided the end event occurs; all the occurrences of that id are shown
    so, not only the paired one.  Every other occurrence is shown with
    duration [null] and an empty end time. *)
Theorem formatted_durations (d : SofDocument) :
  Forall2
    (fun e f =>
       (forall t dur,
          In (id e, t, dur) milestone_pairs -> occurs t (events d) ->
          exists b,
            find_by_id t (getSofEventsChronological d) = Some b /\
            fe_duration f = Some dur /\ fe_endTime f = timestamp b) /\
       ((forall t dur, In (id e, t, dur) milestone_pairs ->
                       ~ occurs t (events d)) ->
        fe_duration f = None /\ fe_endTime f = EmptyString))
    (getSofEventsChronological d)
    (formattedEvents (getSofResultSection d)).
Proof.
  assert (Hf : formattedEvents (getSofResultSection d)
               = map (format_event (eventPairs (getSofResultSection d)))
                   (getSofEventsChronological d)) by reflexivity.
  rewrite Hf. apply Forall2_fmap_r, Forall_Forall2_diag, Forall_forall.
  intros e He. apply list_elem_of_In in He.
  destruct (format_event_pair d e He) as [H1 H2]. split; [|exact H2].
  intros t dur Hin Ho. destruct (find_by_id_is_Some _ _ Ho) as [b Hb].
  exists b. split; [done|]. by apply (H1 t dur b).
Qed.

(** X11: each key event of the result section is absent exactly when no
    occurrence has its id, and otherwise is an occurrence of that id; when
    every timestamp parses, no occurrence of the id has an earlier
    timestamp than it. *)
Theorem key_events_earliest (d : SofDocument) :
  forall proj key, In (proj, key) key_event_table ->
    (proj (keyEvents (getSofResultSection d)) = None <->
     ~ occurs key (events d)) /\
    (forall k,
       proj (keyEvents (getSofResultSection d)) = Some k ->
       In k (events d) /\ id k = key /\
       (Forall parses (events d) ->
        forall e, In e (events d) -> id e = key -> not_later k e)).
Proof.
  intros proj key Hin.
  assert (Hp : proj (keyEvents (getSofResultSection d))
               = find_by_id key (getSofEventsChronological d)).
  { unfold key_event_table in Hin. cbn [In] in Hin.
    destruct Hin as [H|[H|[H|[H|[H|[]]]]]]; by injection H as <- <-. }
  rewrite Hp. split; [apply find_by_id_None|].
  intros k Hk. destruct (find_by_id_Some _ _ _ Hk) as [Hkin Hkid].
  split; [by apply (proj1 (Array_sort_In by_timestamp _ _))|].
  split; [done|].
  intros Hall e He Hid. by apply (find_by_id_earliest d key k e).
Qed.

End FormattedMore.

(** [formatted_durations] on [doc_late_berth]: the anchoring is shown with
    2.5 hours up to the berthing, the berthing with no duration. *)
Lemma formatted_durations_witness :
  map (fun f => (fe_type f, fe_duration f, fe_endTime f))
    (formattedEvents (getSofResultSection (host := IsoDate.host) doc_late_berth))
  = [("Anchored", Some (Js.Fin (5 # 2)), "2025-08-06T10:00:00.000Z");
     ("Berthed", None, EmptyString)] /\
  Forall2
    (fun e f =>
       (forall t dur, In (id e, t, dur) milestone_pairs ->
                      ~ occurs t (events doc_late_berth)) ->
       fe_duration f = None /\ fe_endTime f = EmptyString)
    (getSofEventsChronological (host := IsoDate.host) doc_late_berth)
    (formattedEvents (getSofResultSection (host := IsoDate.host) doc_late_berth)).
Proof.
  split; [reflexivity|].
  eapply Forall2_impl;
    [exact (formatted_durations (host := IsoDate.host) doc_late_berth)|].
  intros e f [_ H]. exact H.
Defined.

(** [key_events_earliest] on [doc_two_anchorings]: of the two anchorings
    the key event is the one of 06:30, which was entered second, and
    neither of the two is earlier. *)
Lemma key_events_earliest_witness :
  map timestamp (events doc_two_anchorings)
  = ["2025-08-06T08:00:00.000Z"; "2025-08-06T06:30:00.000Z"] /\
  exists k,
    anchored (keyEvents (getSofResultSection (host := IsoDate.host)
                           doc_two_anchorings))
    = Some k /\
    timestamp k = "2025-08-06T06:30:00.000Z" /\
    In k (events doc_two_anchorings) /\ id k = "vessel_arrived_anchorage" /\
    Forall (fun e => id e = "vessel_arrived_anchorage" /\
                     not_later (host := IsoDate.host) k e)
      (events doc_two_anchorings).
Proof.
  split; [reflexivity|].
  eexists. split; [reflexivity|]. split; [reflexivity|].
  destruct (proj2 (key_events_earliest (host := IsoDate.host)
              doc_two_anchorings anchored "vessel_arrived_anchorage"
              (or_introl eq_refl)) _ eq_refl) as (Hin & Hid & Hmin).
  split; [exact Hin|]. split; [exact Hid|].
  apply Forall_forall. intros e He. apply list_elem_of_In in He.
  assert (Hide : id e = "vessel_arrived_anchorage").
  { vm_compute in He. destruct He as [<-|[<-|[]]]; reflexivity. }
  split; [exact Hide|].
  apply Hmin; [|exact He|exact Hide].
  repeat constructor; eexists; vm_compute; reflexivity.
Defined.

(** [summary_times] on [doc_late_berth]: a waiting time, no loading time. *)
Lemma summary_times_witness :
  let s := operationalSummary
             (getSofResultSection (host := IsoDate.host) doc_late_berth) in
  waitingTime s = Js.Fin (5 # 2) /\ loadingTime s = Js.Fin 0.
Proof.
  pose proof (summary_times (host := IsoDate.host) doc_late_berth)
    as (Hw & _ & _ & Hl & _).
  split.
  - apply Hw. split; eexists.
    + split; [left; reflexivity|reflexivity].
    + split; [right; left; reflexivity|reflexivity].
  - apply Hl. intros [(e & He & Hid) _].
    vm_compute in He. destruct He as [<-|[<-|[]]]; discriminate Hid.
Defined.

Lemma Math_round_close (x : Q) :
  (Qabs (inject_Z (Qfloor (x * 10 + (1 # 2))) / 10 - x) <= 1 # 20)%Q.
Proof.
  pose proof (Qfloor_le (x * 10 + (1 # 2))) as Hl.
  pose proof (Qlt_floor (x * 10 + (1 # 2))) as Hu.
  rewrite inject_Z_plus in Hu. change (inject_Z 1) with 1%Q in Hu.
  set (n := inject_Z (Qfloor (x * 10 + (1 # 2)))) in *.
  apply Qabs_Qle_condition. unfold Qdiv. change (/ 10)%Q with (1 # 10)%Q.
  clearbody n. split; lra.
Qed.

(** X15: the total time shown by the operational summary is the total time
    rounded to one decimal: it is a whole number of tenths at most 0.05 away
    from [calculateTotalTime]; it is [null] exactly when
    [calculateTotalTime] is [null], NaN or 0. *)
Theorem totalTimeInPort_rounding `{host : DateHost} (d : SofDocument) :
  let shown := totalTimeInPort (operationalSummary (getSofResultSection d)) in
  (forall t, calculateTotalTime d = Some (Js.Fin t) -> ~ (t == 0)%Q ->
     exists (n : Z) (r : Q),
       shown = Some (Js.Fin r) /\ (r == inject_Z n / 10)%Q /\
       (Qabs (r - t) <= 1 # 20)%Q) /\
  (shown = None <->
   calculateTotalTime d = None \/ calculateTotalTime d = Some Js.NaN \/
   exists t, calculateTotalTime d = Some (Js.Fin t) /\ (t == 0)%Q).
Proof.
  cbn [getSofResultSection operationalSummary totalTimeInPort].
  unfold round_for_display. split.
  - intros t -> Ht. cbn [Js.truthy].
    destruct (Qeq_bool t 0) eqn:E; [by apply Qeq_bool_iff in E|].
    cbn [negb Js.mul Js.lift2 Js.Math_round Js.div_lit].
    eexists _, _. split; [reflexivity|]. split; [reflexivity|].
    apply Math_round_close.
  - destruct (calculateTotalTime d) as [[|t]|]; cbn [Js.truthy].
    + split; [by right; left|done].
    + destruct (Qeq_bool t 0) eqn:E; cbn [negb].
      * apply Qeq_bool_iff in E. split; [|done].
        intros _. right. right. by exists t.
      * split; [done|]. intros [H|[H|(t' & H & Ht')]]; try done.
        injection H as <-. apply Qeq_bool_iff in Ht'. congruence.
    + split; [by left|done].
Qed.

(** [totalTimeInPort_rounding] on [doc_late_berth], whose total time is
    12600000 / 3600000 hours. *)
Lemma totalTimeInPort_rounding_witness :
  exists (n : Z) (r : Q),
    totalTimeInPort
      (operationalSummary (getSofResultSection (host := IsoDate.host) doc_late_berth))
    = Some (Js.Fin r) /\ (r == inject_Z n / 10)%Q /\
    (Qabs (r - (12600000 # 3600000)) <= 1 # 20)%Q.
Proof.
  destruct (proj1 (totalTimeInPort_rounding (host := IsoDate.host) doc_late_berth)
              (12600000 # 3600000)%Q eq_refl)
    as (n & r & H1 & H2 & H3); [by vm_compute|].
  exists n, r. split; [exact H1|]. split; [exact H2|exact H3].
Defined.

(** ** More on the calculator *)


Lemma rejected_below_zero_spec f :
  rejected_below_zero f = false <-> holds_nonneg f.
Proof.
  unfold holds_nonneg. destruct f as [|[|q]]; simpl.
  - split; [done|]. by intros (q & H & _).
  - split; [done|]. by intros (q & H & _).
  - rewrite negb_false_iff, Qle_bool_iff. split.
    + intros H. by exists q.
    + by intros (q' & [= <-] & H).
Qed.

Lemma rejected_up_to_zero_spec f :
  rejected_up_to_zero f = false <-> holds_positive f.
Proof.
  unfold holds_positive. destruct f as [|[|q]]; simpl.
  - split; [done|]. by intros (q & H & _).
  - split; [done|]. by intros (q & H & _).
  - split.
    + intros H. exists q. split; [done|]. apply Qnot_le_lt. intros Hle.
      apply Qle_bool_iff in Hle. congruence.
    + intros (q' & [= <-] & H). destruct (Qle_bool q 0) eqn:E; [|done].
      apply Qle_bool_iff in E. lra.
Qed.

Lemma valid_inputs_iff st :
  (exists r a u x, valid_inputs st r a u x) <->
  rejected_below_zero (dailyRate st) = false /\
  rejected_below_zero (allowedTimeDays st) = false /\
  rejected_below_zero (usedTimeDays st) = false /\
  rejected_up_to_zero (exchangeRate st) = false.
Proof.
  rewrite !rejected_below_zero_spec, rejected_up_to_zero_spec.
  unfold valid_inputs, holds_nonneg, holds_positive. split.
  - intros (r & a & u & x & ? & ? & ? & ? & ? & ? & ? & ?).
    split; [by exists r|split; [by exists a|split; [by exists u|by exists x]]].
  - intros ((r & ? & ?) & (a & ? & ?) & (u & ? & ?) & (x & ? & ?)).
    exists r, a, u, x. by repeat split.
Qed.

(** X16: [calculateDemurrage] produces a result exactly when the four
    inputs are valid (daily rate, allowed and used time finite and not
    negative, exchange rate finite and positive); otherwise the result cell
    is set to [null], whatever it held before. *)
Theorem result_iff_valid (st : State) :
  (is_Some (calculationResult (calculateDemurrage st)) <->
   exists r a u x, valid_inputs st r a u x) /\
  (~ (exists r a u x, valid_inputs st r a u x) ->
   calculationResult (calculateDemurrage st) = None).
Proof.
  assert (H : ~ (exists r a u x, valid_inputs st r a u x) ->
              calculationResult (calculateDemurrage st) = None).
  { rewrite valid_inputs_iff. intros Hn.
    unfold calculateDemurrage, validateInputs.
    destruct (rejected_below_zero (dailyRate st)),
             (rejected_below_zero (allowedTimeDays st)),
             (rejected_below_zero (usedTimeDays st)),
             (rejected_up_to_zero (exchangeRate st));
      first [reflexivity | by destruct Hn]. }
  split; [|exact H]. split.
  - intros Hs. apply valid_inputs_iff.
    destruct (rejected_below_zero (dailyRate st)) eqn:E1,
             (rejected_below_zero (allowedTimeDays st)) eqn:E2,
             (rejected_below_zero (usedTimeDays st)) eqn:E3,
             (rejected_up_to_zero (exchangeRate st)) eqn:E4;
      first [done | exfalso; rewrite H in Hs;
                    [by destruct Hs
                    |rewrite valid_inputs_iff, E1, E2, E3, E4; by intros (?&?&?&?)]].
  - intros (r & a & u & x & Hv). by rewrite (calculateDemurrage_valid _ _ _ _ _ Hv).
Qed.

(** X17: after [calculateDemurrage] the error dictionary has an entry for
    a field exactly when that field is invalid, with the message of that
    field, and no entry under any other key; the input cells are left as
    they were. *)
Theorem validation_errors (st : State) :
  let st' := calculateDemurrage st in
  (errors st' !! "dailyRate"
   = if rejected_below_zero (dailyRate st)
     then Some "Valid daily rate is required" else None) /\
  (errors st' !! "allowedTimeDays"
   = if rejected_below_zero (allowedTimeDays st)
     then Some "Valid allowed time is required (days)" else None) /\
  (errors st' !! "usedTimeDays"
   = if rejected_below_zero (usedTimeDays st)
     then Some "Valid used time is required (days)" else None) /\
  (errors st' !! "exchangeRate"
   = if rejected_up_to_zero (exchangeRate st)
     then Some "Valid exchange rate is required" else None) /\
  (forall k, ~ In k ["dailyRate"; "allowedTimeDays"; "usedTimeDays"; "exchangeRate"] ->
             errors st' !! k = None) /\
  dailyRate st' = dailyRate st /\ allowedTimeDays st' = allowedTimeDays st /\
  usedTimeDays st' = usedTimeDays st /\ exchangeRate st' = exchangeRate st /\
  fromCurrency st' = fromCurrency st /\ toCurrency st' = toCurrency st.
Proof.
  cbn zeta.
  assert (He : errors (calculateDemurrage st) = errors (validateInputs st).1
             /\ dailyRate (calculateDemurrage st) = dailyRate st
             /\ allowedTimeDays (calculateDemurrage st) = allowedTimeDays st
             /\ usedTimeDays (calculateDemurrage st) = usedTimeDays st
             /\ exchangeRate (calculateDemurrage st) = exchangeRate st
             /\ fromCurrency (calculateDemurrage st) = fromCurrency st
             /\ toCurrency (calculateDemurrage st) = toCurrency st).
  { unfold calculateDemurrage. destruct (validateInputs st) as [st1 ok] eqn:E.
    assert (st1 = (validateInputs st).1) by by rewrite E. subst st1.
    destruct ok; cbn [negb]; [|by repeat split].
    destruct (Js.gt _ _); by repeat split. }
  destruct He as (-> & -> & -> & -> & -> & -> & ->).
  unfold validateInputs; cbn [fst errors setErrors]. unfold set_error_if.
  repeat split.
  1-4: destruct (rejected_below_zero (dailyRate st)),
                (rejected_below_zero (allowedTimeDays st)),
                (rejected_below_zero (usedTimeDays st)),
                (rejected_up_to_zero (exchangeRate st)); by vm_compute.
  intros k Hk. cbn [In] in Hk.
  destruct (rejected_below_zero (dailyRate st)),
           (rejected_below_zero (allowedTimeDays st)),
           (rejected_below_zero (usedTimeDays st)),
           (rejected_up_to_zero (exchangeRate st));
    rewrite ?lookup_insert_ne, ?lookup_empty; try done;
    intros <-; apply Hk; auto 8.
Qed.

Lemma State_ext (s1 s2 : State) :
  dailyRate s1 = dailyRate s2 -> allowedTimeDays s1 = allowedTimeDays s2 ->
  usedTimeDays s1 = usedTimeDays s2 -> fromCurrency s1 = fromCurrency s2 ->
  toCurrency s1 = toCurrency s2 -> exchangeRate s1 = exchangeRate s2 ->
  isLoadingExchangeRate s1 = isLoadingExchangeRate s2 ->
  calculationResult s1 = calculationResult s2 -> errors s1 = errors s2 ->
  s1 = s2.
Proof. destruct s1, s2; simpl. by intros -> -> -> -> -> -> -> -> ->. Qed.

(** [calculateDemurrage] writes the result and the errors only. *)
Lemma calculateDemurrage_frame (s : State) :
  dailyRate (calculateDemurrage s) = dailyRate s /\
  allowedTimeDays (calculateDemurrage s) = allowedTimeDays s /\
  usedTimeDays (calculateDemurrage s) = usedTimeDays s /\
  fromCurrency (calculateDemurrage s) = fromCurrency s /\
  toCurrency (calculateDemurrage s) = toCurrency s /\
  exchangeRate (calculateDemurrage s) = exchangeRate s /\
  isLoadingExchangeRate (calculateDemurrage s) = isLoadingExchangeRate s.
Proof.
  unfold calculateDemurrage. destruct (validateInputs s) as [s1 ok] eqn:E.
  assert (s1 = setErrors (errors s1) s) as ->.
  { unfold validateInputs in E. by injection E as <- _. }
  destruct (negb ok); [by repeat split|].
  destruct (Js.gt _ _); by repeat split.
Qed.

(** What it writes depends on the six input cells only. *)
Lemma calculateDemurrage_inputs_only (s1 s2 : State) :
  dailyRate s1 = dailyRate s2 -> allowedTimeDays s1 = allowedTimeDays s2 ->
  usedTimeDays s1 = usedTimeDays s2 -> fromCurrency s1 = fromCurrency s2 ->
  toCurrency s1 = toCurrency s2 -> exchangeRate s1 = exchangeRate s2 ->
  calculationResult (calculateDemurrage s1)
  = calculationResult (calculateDemurrage s2) /\
  errors (calculateDemurrage s1) = errors (calculateDemurrage s2).
Proof.
  intros H1 H2 H3 H4 H5 H6. unfold calculateDemurrage, validateInputs.
  rewrite H1, H2, H3, H4, H5, H6.
  destruct (negb _); [by split|]. by destruct (Js.gt _ _).
Qed.

(** X18: pressing Calculate twice changes nothing more: the state after a
    second [calculateDemurrage] is the state after the first. *)
Theorem calculateDemurrage_idempotent (st : State) :
  calculateDemurrage (calculateDemurrage st) = calculateDemurrage st.
Proof.
  destruct (calculateDemurrage_frame st) as (F1 & F2 & F3 & F4 & F5 & F6 & F7).
  destruct (calculateDemurrage_frame (calculateDemurrage st))
    as (G1 & G2 & G3 & G4 & G5 & G6 & G7).
  destruct (calculateDemurrage_inputs_only (calculateDemurrage st) st)
    as [R E]; try done.
  apply State_ext; congruence.
Qed.

Lemma toFixed2_comp q q' :
  (0 <= q)%Q -> (q == q')%Q ->
  Js.eqv (Js.toFixed 2 (Js.Fin q)) (Js.toFixed 2 (Js.Fin q')).
Proof.
  intros H0 He. assert (H0' : (0 <= q')%Q) by by rewrite <- He.
  destruct (toFixed2_nonneg q H0) as (a & -> & Ha).
  destruct (toFixed2_nonneg q' H0') as (b & -> & Hb).
  simpl. rewrite Ha, Hb. by apply cents_comp.
Qed.

Lemma Qabs_swap (u a : Q) : (Qabs (u - a) == Qabs (a - u))%Q.
Proof.
  assert (E : (u - a == - (a - u))%Q) by ring. rewrite E. apply Qabs_opp.
Qed.

Lemma excess_magnitude (u a : Q) :
  ((if Qle_bool (u - a) 0 then Qabs (u - a) else u - a) == Qabs (u - a))%Q.
Proof.
  pose proof (excess_sign u a) as Hs.
  destruct (Qle_bool (u - a) 0); [reflexivity|].
  symmetry. apply Qabs_pos. lra.
Qed.

(** X19: exchanging allowed and used time exchanges Demurrage and Despatch
    and leaves the amount and the converted amount as they are (when the two
    times differ; when they are equal both results are a Despatch of 0). *)
Theorem swap_allowed_and_used (st : State) (r a u x : Q) :
  valid_inputs st r a u x ->
  exists res res' c c',
    calculationResult (calculateDemurrage st) = Some res /\
    calculationResult (calculateDemurrage (swap_times st)) = Some res' /\
    Js.eqv (amount res) (amount res') /\
    convertedAmount res = Some c /\ convertedAmount res' = Some c' /\
    Js.eqv c c' /\
    ((a < u)%Q -> type res = Demurrage /\ type res' = Despatch) /\
    ((u < a)%Q -> type res = Despatch /\ type res' = Demurrage) /\
    ((u == a)%Q -> type res = Despatch /\ type res' = Despatch).
Proof.
  intros Hv.
  assert (Hv' : valid_inputs (swap_times st) r u a x).
  { destruct Hv as (? & ? & ? & ? & ? & ? & ? & ?). by repeat split. }
  pose proof (calculateDemurrage_valid _ _ _ _ _ Hv) as H1.
  pose proof (calculateDemurrage_valid _ _ _ _ _ Hv') as H2.
  destruct Hv as (_ & _ & _ & _ & Hr & _ & _ & Hx).
  eexists _, _, _, _. split; [exact H1|]. split; [exact H2|].
  cbn [amount convertedAmount type].
  pose proof (excess_magnitude u a) as M1.
  pose proof (excess_magnitude a u) as M2.
  pose proof (Qabs_swap u a) as Hsw.
  pose proof (Qabs_nonneg (u - a)) as Hn.
  set (m1 := if Qle_bool (u - a) 0 then Qabs (u - a) else (u - a)%Q) in *.
  set (m2 := if Qle_bool (a - u) 0 then Qabs (a - u) else (a - u)%Q) in *.
  assert (Hm : (m1 == m2)%Q) by (rewrite M1, M2; exact Hsw).
  assert (Hm1 : (0 <= m1)%Q) by (rewrite M1; exact Hn).
  split; [|split; [reflexivity|split; [reflexivity|split]]].
  - apply toFixed2_comp; [by apply Qmult_le_0_compat|].
    apply Qmult_comp; [exact Hm|reflexivity].
  - apply toFixed2_comp.
    + apply Qmult_le_0_compat; [by apply Qmult_le_0_compat|lra].
    + apply Qmult_comp; [|reflexivity]. apply Qmult_comp; [exact Hm|reflexivity].
  - pose proof (excess_sign u a) as S1. pose proof (excess_sign a u) as S2.
    destruct (Qle_bool (u - a) 0), (Qle_bool (a - u) 0);
      repeat split; intros; first [done | lra].
Qed.

(** [swap_allowed_and_used] on the scenario of the specification. *)
Lemma swap_allowed_and_used_witness :
  valid_inputs st_scenario 10000 2 3.5 1 /\
  exists res res',
    calculationResult (calculateDemurrage st_scenario) = Some res /\
    calculationResult (calculateDemurrage (swap_times st_scenario)) = Some res' /\
    Js.eqv (amount res) (amount res') /\
    type res = Demurrage /\ type res' = Despatch.
Proof.
  assert (Hv : valid_inputs st_scenario 10000 2 3.5 1).
  { unfold valid_inputs. repeat split; by vm_compute. }
  split; [exact Hv|].
  destruct (swap_allowed_and_used st_scenario 10000 2 3.5 1 Hv)
    as (res & res' & c & c' & H1 & H2 & H3 & _ & _ & _ & H7 & _).
  exists res, res'. destruct H7 as [Ht Ht']; [by vm_compute|].
  by repeat split.
Defined.

Lemma mock_rates_store_positive :
  map_Forall
    (fun _ row => map_Forall (fun _ r => stores_positive r = true) row)
    MOCK_EXCHANGE_RATES.
Proof. apply (bool_decide_unpack _). by vm_compute. Qed.

Lemma getExchangeRate_resolved from to r :
  getExchangeRate from to = Return r -> stores_positive r = true.
Proof.
  unfold getExchangeRate. destruct (String.eqb from to); [by intros [= <-]|].
  destruct (MOCK_EXCHANGE_RATES !! from) as [row|] eqn:Er; simpl; [|done].
  destruct (row !! to) as [r'|] eqn:Et; [|done].
  destruct (Js.truthy r'); [|done]. intros [= <-].
  exact (mock_rates_store_positive _ _ Er _ _ Et).
Qed.

Lemma mock_rates_store_unchanged :
  map_Forall
    (fun _ row => map_Forall (fun _ r => stores_unchanged r = true) row)
    MOCK_EXCHANGE_RATES.
Proof. apply (bool_decide_unpack _). by vm_compute. Qed.

Lemma getExchangeRate_unchanged from to r :
  getExchangeRate from to = Return r -> stores_unchanged r = true.
Proof.
  unfold getExchangeRate. destruct (String.eqb from to); [by intros [= <-]|].
  destruct (MOCK_EXCHANGE_RATES !! from) as [row|] eqn:Er; simpl; [|done].
  destruct (row !! to) as [r'|] eqn:Et; [|done].
  destruct (Js.truthy r'); [|done]. intros [= <-].
  exact (mock_rates_store_unchanged _ _ Er _ _ Et).
Qed.

(** X20: whatever the two currencies, [fetchExchangeRate] leaves a finite
    positive exchange rate in the state, so that the exchange-rate check of
    the validation accepts it: 1 when the currencies are equal, the rate of
    the provider when the provider resolves (storing it to four decimals
    does not change a rate of the table), and 1 when the provider
    rejects. *)
Theorem fetched_rate_is_valid (st : State) :
  holds_positive (exchangeRate (fetchExchangeRate st)) /\
  rejected_up_to_zero (exchangeRate (fetchExchangeRate st)) = false /\
  (fromCurrency st = toCurrency st ->
   exchangeRate (fetchExchangeRate st) = Num (Js.Fin 1)) /\
  (forall r, getExchangeRate (fromCurrency st) (toCurrency st) = Return r ->
             exists q, exchangeRate (fetchExchangeRate st) = Num (Js.Fin q) /\
                       Js.eqv (Js.Fin q) r) /\
  (forall e, getExchangeRate (fromCurrency st) (toCurrency st) = Throw e ->
             exchangeRate (fetchExchangeRate st) = Num (Js.Fin 1)).
Proof.
  assert (H : holds_positive (exchangeRate (fetchExchangeRate st))).
  { unfold fetchExchangeRate.
    destruct (String.eqb (fromCurrency st) (toCurrency st)).
    - exists 1%Q. by split.
    - destruct (getExchangeRate _ _) as [r|e] eqn:E; cbn [exchangeRate
        setIsLoadingExchangeRate setExchangeRate].
      + apply getExchangeRate_resolved in E. unfold stores_positive in E.
        destruct (Js.toFixed 4 r) as [|q]; [done|]. exists q. split; [done|].
        apply Qnot_le_lt. intros Hle. apply Qle_bool_iff in Hle.
        by rewrite Hle in E.
      + exists 1%Q. by split. }
  split; [exact H|]. split; [by apply rejected_up_to_zero_spec|].
  split; [|split].
  - intros Hsame. by rewrite (fetchExchangeRate_same _ Hsame).
  - intros r Hr. unfold fetchExchangeRate.
    destruct (String.eqb (fromCurrency st) (toCurrency st)) eqn:Eq.
    + apply String.eqb_eq in Eq. unfold getExchangeRate in Hr.
      rewrite Eq, String.eqb_refl in Hr. injection Hr as <-.
      exists 1%Q. split; [done|]. simpl. reflexivity.
    + rewrite Hr. cbn [exchangeRate setIsLoadingExchangeRate setExchangeRate].
      apply getExchangeRate_unchanged in Hr. unfold stores_unchanged in Hr.
      destruct (Js.toFixed 4 r) as [|q]; [done|]. destruct r as [|y]; [done|].
      exists q. split; [done|]. simpl. by apply Qeq_bool_iff.
  - intros e He. unfold fetchExchangeRate.
    destruct (String.eqb (fromCurrency st) (toCurrency st)); [done|].
    by rewrite He.
Qed.

(** X21: for every pair of currencies that the form offers the provider
    resolves, with a positive rate that four decimals store unchanged; a
    pair of equal currencies gives 1. *)
Theorem supported_pairs_resolve (from to : string) :
  In from CalculatorForm.supportedCurrencies ->
  In to CalculatorForm.supportedCurrencies ->
  exists q,
    getExchangeRate from to = Return (Js.Fin q) /\ (0 < q)%Q /\
    Js.eqv (Js.toFixed 4 (Js.Fin q)) (Js.Fin q) /\
    (from = to -> (q == 1)%Q).
Proof.
  unfold CalculatorForm.supportedCurrencies. cbn [In].
  intros Hf Ht.
  repeat (destruct Hf as [<-|Hf]); try done;
    repeat (destruct Ht as [<-|Ht]); try done;
    (eexists; split; [vm_compute; reflexivity|];
     split; [by vm_compute|]; split; [by vm_compute|];
     first [by intros _ | discriminate]).
Qed.

(** [supported_pairs_resolve] for euros into yen. *)
Lemma supported_pairs_resolve_witness :
  exists q, getExchangeRate "EUR" "JPY" = Return (Js.Fin q) /\ (0 < q)%Q.
Proof.
  destruct (supported_pairs_resolve "EUR" "JPY") as (q & H1 & H2 & _).
  - right. left. reflexivity.
  - right. right. right. left. reflexivity.
  - by exists q.
Defined.

Lemma totalDurationHours_fold evs qs acc :
  Forall2 (fun e q => CalculatorForm.duration e = Js.Fin q) evs qs ->
  fold_left (fun sum event => CalculatorForm.add sum (CalculatorForm.duration event))
    evs (Js.Fin acc)
  = Js.Fin (fold_left Qplus qs acc).
Proof.
  intros H. revert acc. induction H as [|e q evs qs He _ IH]; intros acc; [done|].
  cbn [fold_left]. rewrite He. apply IH.
Qed.

Lemma fold_Qplus_nonneg qs acc :
  Forall (fun q => (0 <= q)%Q) qs -> (0 <= acc)%Q ->
  (0 <= fold_left Qplus qs acc)%Q.
Proof.
  intros H. revert acc. induction H as [|q qs Hq _ IH]; intros acc Ha; [done|].
  cbn [fold_left]. apply IH. lra.
Qed.

(** X22: when a file is selected whose events all have a finite duration
    that is not negative, with a sum that binary64 holds, the used time
    becomes the sum of the durations divided by 24, to two decimals (a whole
    number of hundredths within half a hundredth of the quotient, up to the
    rounding of the additions, the division and the reading back), a value
    that is not negative and that the validation accepts; when no file is
    selected the used time is blank, and [calculateDemurrage] then produces
    no result. *)
Theorem populated_used_time (st : State) (file : CalculatorForm.ProcessedFile)
    (qs : list Q) :
  Forall2 (fun e q => CalculatorForm.duration e = Js.Fin q)
    (CalculatorForm.events (CalculatorForm.extractedData file)) qs ->
  Forall (fun q => (0 <= q)%Q) qs ->
  in_range (Qsum qs) ->
  (exists v,
     usedTimeDays (CalculatorForm.populateUsedTime (Some file) st)
     = Num (Js.Fin v) /\
     to_two_decimals (S (length qs)) v (Qsum qs / 24) /\ (0 <= v)%Q /\
     rejected_below_zero (Num (Js.Fin v)) = false) /\
  usedTimeDays (CalculatorForm.populateUsedTime None st) = Blank /\
  calculationResult (calculateDemurrage (CalculatorForm.populateUsedTime None st))
  = None.
Proof.
  intros Hd Hq _. split; [|split; [reflexivity|]].
  - cbn [CalculatorForm.populateUsedTime usedTimeDays CalculatorForm.setUsedTimeDays].
    unfold CalculatorForm.totalDurationHours.
    rewrite (totalDurationHours_fold _ _ _ Hd). cbn [Js.div_lit].
    fold (Qsum qs).
    assert (Hs : (0 <= Qsum qs / 24)%Q).
    { pose proof (fold_Qplus_nonneg qs 0 Hq ltac:(lra)) as H. fold (Qsum qs) in H.
      unfold Qdiv. apply Qmult_le_0_compat; [exact H|by compute]. }
    destruct (toFixed2_nonneg _ Hs) as (v & Hv & Hc).
    assert (Hv0 : (0 <= v)%Q) by (rewrite Hc; by apply cents_nonneg).
    exists v. split; [by rewrite Hv|].
    split; [by apply cents_to_two_decimals|]. split; [exact Hv0|].
    apply rejected_below_zero_spec. by exists v.
  - unfold calculateDemurrage, validateInputs.
    cbn [CalculatorForm.populateUsedTime usedTimeDays CalculatorForm.setUsedTimeDays
         dailyRate allowedTimeDays exchangeRate rejected_below_zero].
    unfold set_error_if at 2. cbn iota.
    destruct (rejected_below_zero (dailyRate st)),
             (rejected_below_zero (allowedTimeDays st)),
             (rejected_up_to_zero (exchangeRate st)); reflexivity.
Qed.

(** [populated_used_time] on a file with events of 30, 12 and 0.5 hours:
    42.5 hours, 1.77 days. *)
Lemma populated_used_time_witness :
  exists v,
    usedTimeDays
      (CalculatorForm.populateUsedTime
         (Some (file_of_durations [Js.Fin 30; Js.Fin 12; Js.Fin 0.5]))
         initial_state)
    = Num (Js.Fin v) /\
    (Qabs (v - 1.77) <= 1 # 1000000000000)%Q /\ (0 <= v)%Q.
Proof.
  destruct (populated_used_time initial_state
              (file_of_durations [Js.Fin 30; Js.Fin 12; Js.Fin 0.5])
              [30; 12; 0.5]%Q)
    as [(v & Hv & [(n & Hn) Hclose] & Hv0 & _) _].
  - repeat constructor.
  - repeat constructor; by compute.
  - by vm_compute.
  - exists v. split; [exact Hv|]. split; [|exact Hv0].
    vm_compute in Hv. injection Hv as <-. by vm_compute.
Defined.

(** [getSofEventsSummary_counts] on [doc_late_berth]: two arrivals, and no
    entry under a key that is not a category. *)
Lemma getSofEventsSummary_counts_witness :
  getSofEventsSummary doc_late_berth !! "Arrival & Port Entry" = Some 2%nat /\
  getSofEventsSummary doc_late_berth !! "Cargo Operations" = Some 0%nat /\
  getSofEventsSummary doc_late_berth !! "Arrival" = None.
Proof.
  pose proof (getSofEventsSummary_counts doc_late_berth) as (Hc & Hk & _).
  split; [exact (Hc ARRIVAL_PORT_ENTRY)|].
  split; [exact (Hc CARGO_OPERATIONS)|].
  apply Hk. intros c. destruct c; discriminate.
Defined.

(** [result_iff_valid] on the form as first shown: nothing entered, no
    result. *)
Lemma result_iff_valid_witness :
  calculationResult (calculateDemurrage initial_state) = None.
Proof.
  apply (proj2 (result_iff_valid initial_state)).
  intros (r & a & u & x & H & _). vm_compute in H. discriminate H.
Defined.

(** [validation_errors] on the form as first shown. *)
Lemma validation_errors_witness :
  errors (calculateDemurrage initial_state) !! "dailyRate"
  = Some "Valid daily rate is required" /\
  errors (calculateDemurrage initial_state) !! "exchangeRate" = None /\
  errors (calculateDemurrage initial_state) !! "fromCurrency" = None.
Proof.
  pose proof (validation_errors initial_state) as (H1 & _ & _ & H4 & Hk & _).
  split; [exact H1|]. split; [exact H4|].
  apply Hk. cbn [In]. intros [H|[H|[H|[H|[]]]]]; discriminate H.
Defined.

(** [fetched_rate_is_valid] for dollars into euros, which the provider
    gives at 0.92, and for a pair the provider does not know. *)
Lemma fetched_rate_is_valid_witness :
  let blank to :=
    {| dailyRate := Blank; allowedTimeDays := Blank;
       usedTimeDays := Blank; fromCurrency := "USD";
       toCurrency := to; exchangeRate := Blank;
       isLoadingExchangeRate := false; calculationResult := None;
       errors := ∅ |} in
  (exists q, exchangeRate (fetchExchangeRate (blank "EUR")) = Num (Js.Fin q) /\
             (q == 0.92)%Q) /\
  exchangeRate (fetchExchangeRate (blank "CHF")) = Num (Js.Fin 1).
Proof.
  intros blank. split.
  - exact (proj1 (proj2 (proj2 (proj2 (fetched_rate_is_valid (blank "EUR")))))
             (Js.Fin 0.92) eq_refl).
  - apply (proj2 (proj2 (proj2 (proj2 (fetched_rate_is_valid (blank "CHF")))))
             (mkError "Exchange rate not found")).
    reflexivity.
Defined.
